(** * amazon-rds-init-cdk: the Initialization Trigger and the Initialization Handler

    A shallow embedding of

      - src/lib/resource-initializer.ts   (class CdkResourceInitializer, the Trigger)
      - src/demos/rds-init-fn-code/index.js  (exports.handler, the Handler)

    together with the parts of the platform the two files call into:
    JSON.stringify / JSON.parse, property access and destructuring, the
    Promise executor, the MD5 digest of Node's [crypto] module, and the
    callback interfaces of the AWS SDK and of the mysql client.

    Strings are byte strings: a JavaScript string is held as its UTF-8
    encoding, which is also what [Hash.update] feeds to the digest. *)

From Stdlib Require Import ZArith List String Ascii Bool Lia Arith.
From Stdlib Require Import DecimalString FinFun.
From Stdlib Require DecimalFacts DecimalPos DecimalN.
Import ListNotations.

Set Warnings "-register-all".

Local Open Scope string_scope.
Local Open Scope list_scope.
Local Open Scope Z_scope.

(* ====================================================================== *)
(** ** Hexadecimal and byte helpers *)

Definition bytes_of_string (s : string) : list Z :=
  map (fun c => Z.of_N (N_of_ascii c)) (list_ascii_of_string s).

Definition hex_digit (n : Z) : ascii :=
  nth (Z.to_nat n)
      (list_ascii_of_string "0123456789abcdef") "0"%char.

(** Two lower-case hexadecimal digits of a byte. *)
Definition hex_byte (b : Z) : string :=
  String (hex_digit (b / 16)) (String (hex_digit (b mod 16)) EmptyString).

(* ====================================================================== *)
(** ** MD5 (RFC 1321), as computed by [createHash('md5')] *)

Module MD5.

Definition mask32 : Z := 0xFFFFFFFF.
Definition w32 (x : Z) : Z := x mod 2 ^ 32.

(** Rotate a 32-bit word left by [c] bits. *)
Definition rotl (x c : Z) : Z :=
  w32 (Z.lor (Z.shiftl x c) (Z.shiftr x (32 - c))).

(** Per-round shift amounts. *)
Definition S : list Z :=
  [ 7; 12; 17; 22;  7; 12; 17; 22;  7; 12; 17; 22;  7; 12; 17; 22;
    5;  9; 14; 20;  5;  9; 14; 20;  5;  9; 14; 20;  5;  9; 14; 20;
    4; 11; 16; 23;  4; 11; 16; 23;  4; 11; 16; 23;  4; 11; 16; 23;
    6; 10; 15; 21;  6; 10; 15; 21;  6; 10; 15; 21;  6; 10; 15; 21 ].

(** K[i] = floor(2^32 * abs(sin(i + 1))). *)
Definition K : list Z :=
  [ 0xd76aa478; 0xe8c7b756; 0x242070db; 0xc1bdceee;
    0xf57c0faf; 0x4787c62a; 0xa8304613; 0xfd469501;
    0x698098d8; 0x8b44f7af; 0xffff5bb1; 0x895cd7be;
    0x6b901122; 0xfd987193; 0xa679438e; 0x49b40821;
    0xf61e2562; 0xc040b340; 0x265e5a51; 0xe9b6c7aa;
    0xd62f105d; 0x02441453; 0xd8a1e681; 0xe7d3fbc8;
    0x21e1cde6; 0xc33707d6; 0xf4d50d87; 0x455a14ed;
    0xa9e3e905; 0xfcefa3f8; 0x676f02d9; 0x8d2a4c8a;
    0xfffa3942; 0x8771f681; 0x6d9d6122; 0xfde5380c;
    0xa4beea44; 0x4bdecfa9; 0xf6bb4b60; 0xbebfbc70;
    0x289b7ec6; 0xeaa127fa; 0xd4ef3085; 0x04881d05;
    0xd9d4d039; 0xe6db99e5; 0x1fa27cf8; 0xc4ac5665;
    0xf4292244; 0x432aff97; 0xab9423a7; 0xfc93a039;
    0x655b59c3; 0x8f0ccc92; 0xffeff47d; 0x85845dd1;
    0x6fa87e4f; 0xfe2ce6e0; 0xa3014314; 0x4e0811a1;
    0xf7537e82; 0xbd3af235; 0x2ad7d2bb; 0xeb86d391 ].

(** The chaining state: the four words A, B, C, D. *)
Record state : Type := State { sA : Z; sB : Z; sC : Z; sD : Z }.

Definition init : state :=
  State 0x67452301 0xefcdab89 0x98badcfe 0x10325476.

(** One of the 64 operations on the message words [M] of a block. *)
Definition step (M : list Z) (st : state) (i : nat) : state :=
  let '(State a b c d) := st in
  let iz := Z.of_nat i in
  let '(f, g) :=
    if iz <? 16 then
      (Z.lor (Z.land b c) (Z.land (Z.lxor b mask32) d), iz)
    else if iz <? 32 then
      (Z.lor (Z.land d b) (Z.land (Z.lxor d mask32) c), (5 * iz + 1) mod 16)
    else if iz <? 48 then
      (Z.lxor b (Z.lxor c d), (3 * iz + 5) mod 16)
    else
      (Z.lxor c (Z.lor b (Z.lxor d mask32)), (7 * iz) mod 16) in
  let f' := w32 (f + a + nth i K 0 + nth (Z.to_nat g) M 0) in
  State d (w32 (b + rotl f' (nth i S 0))) b c.

(** Little-endian 32-bit words of a block of bytes. *)
Fixpoint words (bs : list Z) : list Z :=
  match bs with
  | b0 :: b1 :: b2 :: b3 :: rest =>
      (b0 + 2 ^ 8 * b1 + 2 ^ 16 * b2 + 2 ^ 24 * b3) :: words rest
  | _ => []
  end.

Definition process_block (st : state) (block : list Z) : state :=
  let st' := fold_left (step (words block)) (seq 0 64) st in
  State (w32 (sA st + sA st')) (w32 (sB st + sB st'))
        (w32 (sC st + sC st')) (w32 (sD st + sD st')).

(** The [n] low bytes of [x], least significant first. *)
Fixpoint le_bytes (n : nat) (x : Z) : list Z :=
  match n with
  | O => []
  | Datatypes.S n' => x mod 256 :: le_bytes n' (x / 256)
  end.

(** Padding: a single 1 bit, zeros up to 56 mod 64, the bit length on 64 bits. *)
Definition pad (bs : list Z) : list Z :=
  let len := Z.of_nat (List.length bs) in
  bs ++ [0x80]
     ++ repeat 0 (Z.to_nat ((55 - len) mod 64))
     ++ le_bytes 8 ((8 * len) mod 2 ^ 64).

Fixpoint blocks (k : nat) (bs : list Z) : list (list Z) :=
  match k with
  | O => []
  | Datatypes.S k' => firstn 64 bs :: blocks k' (skipn 64 bs)
  end.

Definition digest (bs : list Z) : state :=
  let p := pad bs in
  fold_left process_block (blocks (List.length p / 64) p) init.

Definition hex_word (w : Z) : string :=
  concat "" (map hex_byte (le_bytes 4 w)).

Definition hex_of_state (st : state) : string :=
  (hex_word (sA st) ++ hex_word (sB st) ++ hex_word (sC st) ++ hex_word (sD st))%string.

(** [createHash('md5').update(s).digest('hex')] *)
Definition hex (s : string) : string :=
  hex_of_state (digest (bytes_of_string s)).

(** Two inputs with one digest. *)
Definition collision (x y : string) : Prop := x <> y /\ hex x = hex y.

(** Words of the chaining state are 32-bit words. *)
Definition word_ok (x : Z) : Prop := 0 <= x < 2 ^ 32.

Definition state_ok (st : state) : Prop :=
  word_ok (sA st) /\ word_ok (sB st) /\ word_ok (sC st) /\ word_ok (sD st).

(** The chaining state as one 128-bit number. *)
Definition encode (st : state) : Z :=
  sA st + 2 ^ 32 * (sB st + 2 ^ 32 * (sC st + 2 ^ 32 * sD st)).

End MD5.

(* ====================================================================== *)
(** ** JavaScript values *)

(** The double quote, written by its code so that no literal needs one. *)
Definition dquote : ascii := "034"%char.

(** Test data is written with an apostrophe where the JSON text has a
    double quote. *)
Fixpoint json_text (s : string) : string :=
  match s with
  | EmptyString => EmptyString
  | String c r => String (if Ascii.eqb c "'" then dquote else c) (json_text r)
  end.

(** A Number.  A finite number is held as the decimal [m * 10^e] that
    [Number::toString] prints; rounding to binary64 is outside the model,
    and the sign of zero is not kept. *)
Inductive number : Type :=
| Finite (m e : Z)
| NaN
| PosInfinity
| NegInfinity.

Definition Int (z : Z) : number := Finite z 0.

(** Language values.  An object is the list of its own enumerable
    properties in enumeration order; [VError] is an instance of [Error]
    (its [message] is an own, non-enumerable property). *)
Inductive value : Type :=
| VUndefined
| VNull
| VBool (b : bool)
| VNum (n : number)
| VStr (s : string)
| VArr (xs : list value)
| VObj (fields : list (string * value))
| VError (name message : string).

(** Completion of an evaluation: a value, or a thrown value. *)
Inductive completion (A : Type) : Type :=
| Normal (a : A)
| Throw (v : value).
Arguments Normal {A} a.
Arguments Throw {A} v.

Definition TypeError (msg : string) : value := VError "TypeError" msg.
Definition SyntaxError (msg : string) : value := VError "SyntaxError" msg.

(** ToBoolean: the falsy values are undefined, null, false, 0, NaN and
    the empty string. *)
Definition number_truthy (n : number) : bool :=
  match n with
  | Finite m _ => negb (m =? 0)
  | NaN => false
  | PosInfinity | NegInfinity => true
  end.

Definition ToBoolean (v : value) : bool :=
  match v with
  | VUndefined | VNull => false
  | VBool b => b
  | VNum n => number_truthy n
  | VStr s => negb (String.eqb s "")
  | VArr _ | VObj _ | VError _ _ => true
  end.

(** [a || b] on values of one type, given its truthiness test. *)
Definition js_or {A : Type} (truthy : A -> bool) (a : option A) (b : A) : A :=
  match a with
  | Some x => if truthy x then x else b
  | None => b
  end.

(** Own property lookup. *)
Fixpoint lookup (k : string) (fields : list (string * value)) : option value :=
  match fields with
  | [] => None
  | (k', v) :: rest => if String.eqb k k' then Some v else lookup k rest
  end.

(** [v.k] for a property name [k] that no built-in prototype defines
    (all the names the sources read: params, config, credsSecretName,
    password, username, host, SecretString, message).  Reading a property
    of undefined or null throws a TypeError. *)
Definition GetV (v : value) (k : string) : completion value :=
  match v with
  | VUndefined =>
      Throw (TypeError ("Cannot read properties of undefined (reading '" ++ k ++ "')"))
  | VNull =>
      Throw (TypeError ("Cannot read properties of null (reading '" ++ k ++ "')"))
  | VObj fields =>
      Normal (match lookup k fields with Some x => x | None => VUndefined end)
  | VError _ message =>
      Normal (if String.eqb k "message" then VStr message else VUndefined)
  | VBool _ | VNum _ | VStr _ | VArr _ => Normal VUndefined
  end.

(** RequireObjectCoercible, the first step of an object destructuring
    pattern [const { k, ... } = v]. *)
Definition RequireObjectCoercible (v : value) (k : string) : completion value :=
  match v with
  | VUndefined =>
      Throw (TypeError ("Cannot destructure property '" ++ k ++ "' of undefined"))
  | VNull =>
      Throw (TypeError ("Cannot destructure property '" ++ k ++ "' of null"))
  | _ => Normal v
  end.

Definition bind {A B : Type} (c : completion A) (k : A -> completion B)
  : completion B :=
  match c with
  | Normal a => k a
  | Throw v => Throw v
  end.

(* ====================================================================== *)
(** ** Number::toString and ToString *)

Definition digits_of_Z (z : Z) : list ascii :=
  list_ascii_of_string (NilZero.string_of_uint (N.to_uint (Z.to_N (Z.abs z)))).

(** Drop the zeros that end a reversed digit list, counting them. *)
Fixpoint strip_zeros (rev_digits : list ascii) (e : Z) : list ascii * Z :=
  match rev_digits with
  | c :: rest => if Ascii.eqb c "0" then strip_zeros rest (e + 1) else (rev_digits, e)
  | [] => ([], e)
  end.

Definition zeros (n : Z) : list ascii := repeat "0"%char (Z.to_nat n).

Definition Number_toString (x : number) : string :=
  match x with
  | NaN => "NaN"
  | PosInfinity => "Infinity"
  | NegInfinity => "-Infinity"
  | Finite m e =>
      if m =? 0 then "0" else
      let '(rds, e') := strip_zeros (rev (digits_of_Z m)) e in
      let ds := rev rds in
      let k := Z.of_nat (List.length ds) in
      let n := k + e' in
      let body :=
        if (k <=? n) && (n <=? 21) then ds ++ zeros (n - k)
        else if (0 <? n) && (n <=? 21) then
          firstn (Z.to_nat n) ds ++ ["."%char] ++ skipn (Z.to_nat n) ds
        else if (-6 <? n) && (n <=? 0) then
          ["0"%char; "."%char] ++ zeros (- n) ++ ds
        else
          let ex := n - 1 in
          let es := (if ex <? 0 then "-"%char else "+"%char) :: digits_of_Z ex in
          if k =? 1 then ds ++ ["e"%char] ++ es
          else firstn 1 ds ++ ["."%char] ++ skipn 1 ds ++ ["e"%char] ++ es in
      string_of_list_ascii ((if m <? 0 then ["-"%char] else []) ++ body)
  end.

Fixpoint join (sep : string) (parts : list string) : string :=
  match parts with
  | [] => ""
  | [p] => p
  | p :: rest => (p ++ sep ++ join sep rest)%string
  end.

Fixpoint ToString (v : value) : string :=
  match v with
  | VUndefined => "undefined"
  | VNull => "null"
  | VBool b => if b then "true" else "false"
  | VNum n => Number_toString n
  | VStr s => s
  | VArr xs =>
      join "," (map (fun x => match x with
                              | VUndefined | VNull => ""
                              | _ => ToString x
                              end) xs)
  | VObj _ => "[object Object]"
  | VError name message =>
      if String.eqb message "" then name
      else if String.eqb name "" then message
      else (name ++ ": " ++ message)%string
  end.

(* ====================================================================== *)
(** ** JSON.stringify *)

Definition quote_char (c : ascii) : string :=
  let n := Z.of_N (N_of_ascii c) in
  if n =? 8 then "\b"
  else if n =? 9 then "\t"
  else if n =? 10 then "\n"
  else if n =? 12 then "\f"
  else if n =? 13 then "\r"
  else if n =? 34 then String "\" (String dquote "")
  else if n =? 92 then "\\"
  else if n <? 32 then ("\u00" ++ hex_byte n)%string
  else String c "".

Fixpoint quote_body (s : string) : string :=
  match s with
  | EmptyString => EmptyString
  | String c r => (quote_char c ++ quote_body r)%string
  end.

Definition QuoteJSONString (s : string) : string :=
  String dquote (quote_body s ++ String dquote "").

Definition number_finite (n : number) : bool :=
  match n with Finite _ _ => true | _ => false end.

(** [JSON.stringify(v)] with no replacer and no indentation; [None] is
    the result [undefined].  A property whose value serializes to
    undefined is left out of an object and written null in an array. *)
Fixpoint JSON_stringify (v : value) : option string :=
  match v with
  | VUndefined => None
  | VNull => Some "null"
  | VBool b => Some (if b then "true" else "false")
  | VNum n => Some (if number_finite n then Number_toString n else "null")
  | VStr s => Some (QuoteJSONString s)
  | VArr xs =>
      Some ("[" ++ join "," (map (fun x => match JSON_stringify x with
                                           | Some t => t
                                           | None => "null"
                                           end) xs) ++ "]")%string
  | VObj fields =>
      Some ("{" ++ join "," (flat_map (fun kv =>
                               match JSON_stringify (snd kv) with
                               | Some t => [(QuoteJSONString (fst kv) ++ ":" ++ t)%string]
                               | None => []
                               end) fields) ++ "}")%string
  | VError _ _ => Some "{}"
  end.

(* ====================================================================== *)
(** ** JSON.parse *)

Definition code (c : ascii) : Z := Z.of_N (N_of_ascii c).
Definition char_of (n : Z) : ascii := ascii_of_N (Z.to_N n).

Definition is_ws (c : ascii) : bool :=
  let n := code c in (n =? 32) || (n =? 9) || (n =? 10) || (n =? 13).

Definition is_digit (c : ascii) : bool :=
  let n := code c in (48 <=? n) && (n <=? 57).

Fixpoint skip_ws (s : string) : string :=
  match s with
  | String c r => if is_ws c then skip_ws r else s
  | EmptyString => EmptyString
  end.

(** [strip_prefix p s] is the rest of [s] after [p], when [s] starts with [p]. *)
Fixpoint strip_prefix (p s : string) : option string :=
  match p, s with
  | EmptyString, _ => Some s
  | String a p', String b s' => if Ascii.eqb a b then strip_prefix p' s' else None
  | String _ _, EmptyString => None
  end.

(** The longest run of digits that starts [s], and what follows it. *)
Fixpoint span_digits (s : string) : list ascii * string :=
  match s with
  | String c r =>
      if is_digit c then let '(ds, rest) := span_digits r in (c :: ds, rest)
      else ([], s)
  | EmptyString => ([], EmptyString)
  end.

Definition Z_of_digits (ds : list ascii) : Z :=
  fold_left (fun acc c => 10 * acc + (code c - 48)) ds 0.

(** [opt_char c s]: whether [s] starts with [c], and [s] without it if so. *)
Definition opt_char (c : ascii) (s : string) : bool * string :=
  match s with
  | String c' r => if Ascii.eqb c c' then (true, r) else (false, s)
  | EmptyString => (false, s)
  end.

(** One digit or more. *)
Definition digits1 (s : string) : option (list ascii * string) :=
  match span_digits s with
  | ([], _) => None
  | (ds, r) => Some (ds, r)
  end.

(** int ::= 0 | [1-9][0-9]* *)
Definition int_digits (s : string) : option (list ascii * string) :=
  let '(zero, r) := opt_char "0" s in
  if zero then Some (["0"%char], r) else digits1 s.

(** frac ::= (. [0-9]+)? *)
Definition frac_digits (s : string) : option (list ascii * string) :=
  let '(dot, r) := opt_char "." s in
  if dot then digits1 r else Some ([], s).

(** exp ::= ([eE] [+-]? [0-9]+)? *)
Definition exponent (s : string) : option (Z * string) :=
  match s with
  | String c r =>
      if Ascii.eqb c "e" || Ascii.eqb c "E" then
        let '(minus, r1) := opt_char "-" r in
        let '(_, r2) := if minus then (true, r1) else opt_char "+" r in
        match digits1 r2 with
        | Some (eds, r3) => Some ((if minus then -1 else 1) * Z_of_digits eds, r3)
        | None => None
        end
      else Some (0, s)
  | EmptyString => Some (0, s)
  end.

(** number ::= -? int frac exp *)
Definition parse_number (s : string) : option (number * string) :=
  let '(neg, s1) := opt_char "-" s in
  match int_digits s1 with
  | None => None
  | Some (ids, s2) =>
      match frac_digits s2 with
      | None => None
      | Some (fds, s3) =>
          match exponent s3 with
          | None => None
          | Some (ex, s4) =>
              let m := Z_of_digits (ids ++ fds) in
              Some (Finite (if neg then - m else m)
                           (ex - Z.of_nat (List.length fds)), s4)
          end
      end
  end.

Definition hex_value (c : ascii) : option Z :=
  let n := code c in
  if (48 <=? n) && (n <=? 57) then Some (n - 48)
  else if (97 <=? n) && (n <=? 102) then Some (n - 87)
  else if (65 <=? n) && (n <=? 70) then Some (n - 55)
  else None.

Definition hex4 (a b c d : ascii) : option Z :=
  match hex_value a, hex_value b, hex_value c, hex_value d with
  | Some x, Some y, Some z, Some w => Some (((x * 16 + y) * 16 + z) * 16 + w)
  | _, _, _, _ => None
  end.

(** UTF-8 encoding of a code point (a lone surrogate is encoded likewise). *)
Definition utf8 (cp : Z) : string :=
  let ch n := String (char_of n) "" in
  if cp <? 0x80 then ch cp
  else if cp <? 0x800 then
    (ch (0xC0 + cp / 64) ++ ch (0x80 + cp mod 64))%string
  else if cp <? 0x10000 then
    (ch (0xE0 + cp / 4096) ++ ch (0x80 + (cp / 64) mod 64)
       ++ ch (0x80 + cp mod 64))%string
  else
    (ch (0xF0 + cp / 262144) ++ ch (0x80 + (cp / 4096) mod 64)
       ++ ch (0x80 + (cp / 64) mod 64) ++ ch (0x80 + cp mod 64))%string.

Definition is_high_surrogate (u : Z) : bool := (0xD800 <=? u) && (u <? 0xDC00).
Definition is_low_surrogate (u : Z) : bool := (0xDC00 <=? u) && (u <? 0xE000).

(** A character of a string literal as read: a byte of the text, or the
    UTF-16 code unit a \u escape denotes. *)
Inductive item : Type :=
| Byte (c : ascii)
| Unit (u : Z).

(** The character a two-character escape denotes. *)
Definition simple_escape (e : ascii) : option ascii :=
  if Ascii.eqb e dquote then Some dquote
  else if Ascii.eqb e "\" then Some "\"%char
  else if Ascii.eqb e "/" then Some "/"%char
  else if Ascii.eqb e "b" then Some (char_of 8)
  else if Ascii.eqb e "f" then Some (char_of 12)
  else if Ascii.eqb e "n" then Some (char_of 10)
  else if Ascii.eqb e "r" then Some (char_of 13)
  else if Ascii.eqb e "t" then Some (char_of 9)
  else None.

Definition cons_item (i : item) (o : option (list item * string))
  : option (list item * string) :=
  match o with
  | Some (items, rest) => Some (i :: items, rest)
  | None => None
  end.

(** The characters of a string literal after its opening quote, up to and
    including the closing quote. *)
Fixpoint parse_string_items (s : string) : option (list item * string) :=
  match s with
  | EmptyString => None
  | String c r =>
      if Ascii.eqb c dquote then Some ([], r)
      else if Ascii.eqb c "\" then
        match r with
        | String e r1 =>
            if Ascii.eqb e "u" then
              match r1 with
              | String h1 (String h2 (String h3 (String h4 r2))) =>
                  match hex4 h1 h2 h3 h4 with
                  | Some u => cons_item (Unit u) (parse_string_items r2)
                  | None => None
                  end
              | _ => None
              end
            else
              match simple_escape e with
              | Some x => cons_item (Byte x) (parse_string_items r1)
              | None => None
              end
        | EmptyString => None
        end
      else if code c <? 32 then None
      else cons_item (Byte c) (parse_string_items r)
  end.

(** The string the items denote: a high surrogate followed by a low one
    is one code point. *)
Fixpoint decode_items (items : list item) : string :=
  match items with
  | [] => EmptyString
  | Byte c :: rest => String c (decode_items rest)
  | Unit u :: rest =>
      match rest with
      | Unit lo :: rest' =>
          if is_high_surrogate u && is_low_surrogate lo then
            (utf8 (0x10000 + (u - 0xD800) * 1024 + (lo - 0xDC00))
               ++ decode_items rest')%string
          else (utf8 u ++ decode_items rest)%string
      | _ => (utf8 u ++ decode_items rest)%string
      end
  end.

Definition parse_string_body (s : string) : option (string * string) :=
  match parse_string_items s with
  | Some (items, rest) => Some (decode_items items, rest)
  | None => None
  end.

(** CreateDataProperty on the list of own properties: a repeated key
    keeps its place and takes the new value.  (The reordering of
    integer-like keys is not modelled; no lookup depends on it.) *)
Fixpoint obj_put (k : string) (v : value) (fields : list (string * value))
  : list (string * value) :=
  match fields with
  | [] => [(k, v)]
  | (k', v') :: rest =>
      if String.eqb k k' then (k, v) :: rest else (k', v') :: obj_put k v rest
  end.

Definition obj_of_members (members : list (string * value)) : value :=
  VObj (fold_left (fun fields kv => obj_put (fst kv) (snd kv) fields) members []).

(** Result of a parser: a value and the unread text, a syntax error, or
    recursion budget exhausted ([parse_value_budget] below shows that the
    budget [JSON_parse] gives is never exhausted). *)
Inductive parsed (A : Type) : Type :=
| POk (a : A) (rest : string)
| PError
| PFuel.
Arguments POk {A} a rest.
Arguments PError {A}.
Arguments PFuel {A}.

(** Recursive descent over the JSON grammar.  [parse_elements] reads the
    elements of an array after its first bracket or a comma,
    [parse_members] the members of an object likewise. *)
Fixpoint parse_value (fuel : nat) (s : string) {struct fuel} : parsed value :=
  match fuel with
  | O => PFuel
  | S f =>
      match skip_ws s with
      | EmptyString => PError
      | String c r =>
          if Ascii.eqb c "{" then
            let '(closed, r') := opt_char "}" (skip_ws r) in
            if closed then POk (VObj []) r' else parse_members f r []
          else if Ascii.eqb c "[" then
            let '(closed, r') := opt_char "]" (skip_ws r) in
            if closed then POk (VArr []) r' else parse_elements f r []
          else if Ascii.eqb c dquote then
            match parse_string_body r with
            | Some (t, rest) => POk (VStr t) rest
            | None => PError
            end
          else if Ascii.eqb c "t" then
            match strip_prefix "rue" r with
            | Some rest => POk (VBool true) rest
            | None => PError
            end
          else if Ascii.eqb c "f" then
            match strip_prefix "alse" r with
            | Some rest => POk (VBool false) rest
            | None => PError
            end
          else if Ascii.eqb c "n" then
            match strip_prefix "ull" r with
            | Some rest => POk VNull rest
            | None => PError
            end
          else
            match parse_number (String c r) with
            | Some (n, rest) => POk (VNum n) rest
            | None => PError
            end
      end
  end

with parse_elements (fuel : nat) (s : string) (acc : list value) {struct fuel}
  : parsed value :=
  match fuel with
  | O => PFuel
  | S f =>
      match parse_value f s with
      | POk v r =>
          match skip_ws r with
          | String c r' =>
              if Ascii.eqb c "," then parse_elements f r' (v :: acc)
              else if Ascii.eqb c "]" then POk (VArr (rev (v :: acc))) r'
              else PError
          | EmptyString => PError
          end
      | PError => PError
      | PFuel => PFuel
      end
  end

with parse_members (fuel : nat) (s : string) (acc : list (string * value))
       {struct fuel} : parsed value :=
  match fuel with
  | O => PFuel
  | S f =>
      match skip_ws s with
      | String q r =>
          if Ascii.eqb q dquote then
            match parse_string_body r with
            | Some (k, r1) =>
                let '(colon, r2) := opt_char ":" (skip_ws r1) in
                if colon then
                  match parse_value f r2 with
                  | POk v r3 =>
                      match skip_ws r3 with
                      | String c r4 =>
                          if Ascii.eqb c "," then parse_members f r4 ((k, v) :: acc)
                          else if Ascii.eqb c "}" then
                            POk (obj_of_members (rev ((k, v) :: acc))) r4
                          else PError
                      | EmptyString => PError
                      end
                  | PError => PError
                  | PFuel => PFuel
                  end
                else PError
            | None => PError
            end
          else PError
      | EmptyString => PError
      end
  end.

(** What a parser returns is shorter than what it was given. *)
Definition shorter (res : parsed value) (s : string) : Prop :=
  match res with
  | POk _ r => (String.length r < String.length s)%nat
  | _ => True
  end.

Definition parse_budget (text : string) : nat := 2 * String.length text + 1.

(** [JSON.parse(text)] with no reviver: the value the text denotes, or a
    SyntaxError. *)
Definition JSON_parse_text (text : string) : completion value :=
  match parse_value (parse_budget text) text with
  | POk v rest =>
      match skip_ws rest with
      | EmptyString => Normal v
      | String _ _ => Throw (SyntaxError "Unexpected non-whitespace character after JSON")
      end
  | PError | PFuel => Throw (SyntaxError "Unexpected token in JSON")
  end.

(** [JSON.parse(x)]: the argument is first converted with ToString. *)
Definition JSON_parse (x : value) : completion value :=
  JSON_parse_text (ToString x).

(** *** JSON data

    The values [JSON.stringify] and [JSON.parse] carry unchanged: null,
    booleans, strings, integers of at most 21 digits (which
    [Number::toString] writes out in full), and arrays and objects of
    these, the keys of an object being distinct. *)

Fixpoint distinct (keys : list string) : bool :=
  match keys with
  | [] => true
  | k :: rest => negb (existsb (String.eqb k) rest) && distinct rest
  end.

Definition is_json_integer (n : number) : bool :=
  match n with
  | Finite m e => (e =? 0) && (List.length (digits_of_Z m) <=? 21)%nat
  | _ => false
  end.

Fixpoint is_json_data (v : value) : bool :=
  match v with
  | VNull | VBool _ | VStr _ => true
  | VNum n => is_json_integer n
  | VArr xs => forallb is_json_data xs
  | VObj fields =>
      distinct (map fst fields)
      && forallb (fun kv => is_json_data (snd kv)) fields
  | VUndefined | VError _ _ => false
  end.

(** The decimal digits of a [Decimal.uint], most significant first. *)
Fixpoint uint_chars (d : Decimal.uint) : list ascii :=
  match d with
  | Decimal.Nil => []
  | Decimal.D0 d' => "0"%char :: uint_chars d'
  | Decimal.D1 d' => "1"%char :: uint_chars d'
  | Decimal.D2 d' => "2"%char :: uint_chars d'
  | Decimal.D3 d' => "3"%char :: uint_chars d'
  | Decimal.D4 d' => "4"%char :: uint_chars d'
  | Decimal.D5 d' => "5"%char :: uint_chars d'
  | Decimal.D6 d' => "6"%char :: uint_chars d'
  | Decimal.D7 d' => "7"%char :: uint_chars d'
  | Decimal.D8 d' => "8"%char :: uint_chars d'
  | Decimal.D9 d' => "9"%char :: uint_chars d'
  end.

(** Text that cannot continue a number: it is empty, or starts with a
    character other than a digit, a point or an exponent mark. *)
Definition ends_number (rest : string) : bool :=
  match rest with
  | EmptyString => true
  | String c _ =>
      negb (is_digit c || Ascii.eqb c "." || Ascii.eqb c "e" || Ascii.eqb c "E")
  end.

(** The item [parse_string_items] reads back for a character
    [QuoteJSONString] wrote. *)
Definition item_of_char (c : ascii) : item :=
  let n := code c in
  if (n <? 32) && negb ((n =? 8) || (n =? 9) || (n =? 10) || (n =? 12) || (n =? 13))
  then Unit n else Byte c.

Fixpoint quoted_items (s : string) : list item :=
  match s with
  | EmptyString => []
  | String c r => item_of_char c :: quoted_items r
  end.

(** The serialization of a value that has one. *)
Definition text_of (v : value) : string :=
  match JSON_stringify v with
  | Some t => t
  | None => "null"
  end.

(** The serialization of a member of an object. *)
Definition member_text (kv : string * value) : string :=
  QuoteJSONString (fst kv) ++ ":" ++ text_of (snd kv).

(** The parser reads [v] back from its serialization, whatever follows
    that does not continue a number. *)
Definition reads_back (v : value) : Prop :=
  forall (fuel : nat) (rest : string),
    (2 * String.length (text_of v) + 1 <= fuel)%nat ->
    ends_number rest = true ->
    parse_value fuel (text_of v ++ rest) = POk v rest.

(* ====================================================================== *)
(** ** The CDK types the Trigger is built from

    Classes of the CDK are held by the properties the Trigger passes to
    them; a method of the CDK whose result the Trigger only passes on
    ([selectSubnets], [getResponseField]) is held by its arguments. *)

Module Cdk.

Inductive TimeUnit : Type := Milliseconds | Seconds | Minutes | Hours | Days.

Record Duration : Type := { amount : Z; unit : TimeUnit }.

(** [Duration.minutes(n)] *)
Definition Duration_minutes (n : Z) : Duration :=
  {| amount := n; unit := Minutes |}.

Inductive SubnetType : Type := PUBLIC | PRIVATE_WITH_NAT | PRIVATE_ISOLATED.

Record IVpc : Type := { vpcId : string }.

Record SubnetSelection : Type :=
  { subnetType : option SubnetType; onePerAz : option bool }.

(** [vpc.selectSubnets(selection)] *)
Record SelectedSubnets : Type :=
  { selectedFrom : IVpc; selection : SubnetSelection }.

Definition selectSubnets (vpc : IVpc) (sel : SubnetSelection) : SelectedSubnets :=
  {| selectedFrom := vpc; selection := sel |}.

(** The properties of [new ec2.SecurityGroup(...)]. *)
Module SecurityGroupProps.
Record t : Type :=
  { securityGroupName : string;
    vpc : IVpc;
    allowAllOutbound : bool }.
End SecurityGroupProps.

Definition SecurityGroup : Type := SecurityGroupProps.t.

Record DockerImageCode : Type := { imageAsset : string }.

(** [RetentionDays] is a numeric enum: the number of days. *)
Definition RetentionDays : Type := Z.

(** The properties of [new lambda.DockerImageFunction(...)]. *)
Module DockerImageFunctionProps.
Record t : Type :=
  { memorySize : number;
    functionName : string;
    code : DockerImageCode;
    vpcSubnets : SelectedSubnets;
    vpc : IVpc;
    securityGroups : list SecurityGroup;
    timeout : Duration;
    logRetention : RetentionDays;
    allowAllOutbound : bool }.
End DockerImageFunctionProps.

Definition DockerImageFunction : Type := DockerImageFunctionProps.t.

Record InvokeParameters : Type :=
  { FunctionName : string; Payload : string }.

Record AwsSdkCall : Type :=
  { service : string;
    action : string;
    parameters : InvokeParameters;
    physicalResourceId : string }.

Record PolicyStatement : Type :=
  { resources : list string; actions : list string }.

Record Role : Type :=
  { assumedBy : string; statements : list PolicyStatement }.

Definition addToPolicy (r : Role) (st : PolicyStatement) : Role :=
  {| assumedBy := assumedBy r; statements := statements r ++ [st] |}.

(** [AwsCustomResourcePolicy.ANY_RESOURCE] *)
Definition ANY_RESOURCE : list string := ["*"].

(** The properties of [new AwsCustomResource(...)]. *)
Module AwsCustomResourceProps.
Record t : Type :=
  { policy : list string;
    onUpdate : AwsSdkCall;
    timeout : Duration;
    role : Role }.
End AwsCustomResourceProps.

Definition AwsCustomResource : Type := AwsCustomResourceProps.t.

(** [customResource.getResponseField(path)] *)
Record ResponseField : Type :=
  { ofResource : AwsCustomResource; dataPath : string }.

Definition getResponseField (cr : AwsCustomResource) (path : string) : ResponseField :=
  {| ofResource := cr; dataPath := path |}.

End Cdk.

(* ====================================================================== *)
(** ** src/lib/resource-initializer.ts *)

Module Trigger.
Import Cdk.

Record CdkResourceInitializerProps : Type :=
  { vpc : IVpc;
    subnetsSelection : SubnetSelection;
    fnSecurityGroups : list SecurityGroup;
    fnTimeout : Duration;
    fnCode : DockerImageCode;
    fnLogRetention : RetentionDays;
    fnMemorySize : option number;
    config : value }.

Record CdkResourceInitializer : Type :=
  { response : ResponseField;
    customResource : AwsCustomResource;
    function : DockerImageFunction }.

(** [JSON.stringify({ params: { config: props.config } })].  The argument
    is an object, so the result is a string ([payload_is_string]). *)
Definition payload (config : value) : string :=
  match JSON_stringify (VObj [("params", VObj [("config", config)])]) with
  | Some s => s
  | None => ToString VUndefined
  end.

(** [createHash('md5').update(calculateFunctionHash(fn) + payload).digest('hex')] *)
Definition physicalResIdHash (functionHash payload : string) : string :=
  MD5.hex (functionHash ++ payload).

Section Constructor.

(** [calculateFunctionHash] of @aws-cdk/aws-lambda: the hash the CDK
    derives from the deployed function. *)
Variable calculateFunctionHash : DockerImageFunction -> string.

Definition fnSg (id : string) (props : CdkResourceInitializerProps) : SecurityGroup :=
  {| SecurityGroupProps.securityGroupName := id ++ "ResourceInitializerFnSg";
     SecurityGroupProps.vpc := vpc props;
     SecurityGroupProps.allowAllOutbound := true |}.

Definition fn (id : string) (props : CdkResourceInitializerProps) : DockerImageFunction :=
  {| DockerImageFunctionProps.memorySize :=
       js_or number_truthy (fnMemorySize props) (Int 128);
     DockerImageFunctionProps.functionName := id ++ "ResourceInitializerFn";
     DockerImageFunctionProps.code := fnCode props;
     DockerImageFunctionProps.vpcSubnets :=
       selectSubnets (vpc props) (subnetsSelection props);
     DockerImageFunctionProps.vpc := vpc props;
     DockerImageFunctionProps.securityGroups := fnSg id props :: fnSecurityGroups props;
     DockerImageFunctionProps.timeout := fnTimeout props;
     DockerImageFunctionProps.logRetention := fnLogRetention props;
     DockerImageFunctionProps.allowAllOutbound := true |}.

(** The Identity Token of a construction: the constant
    [physicalResIdHash] of the constructor. *)
Definition identityToken (id : string) (props : CdkResourceInitializerProps) : string :=
  physicalResIdHash (calculateFunctionHash (fn id props)) (payload (config props)).

Definition sdkCall (id : string) (props : CdkResourceInitializerProps) : AwsSdkCall :=
  {| service := "Lambda";
     action := "invoke";
     parameters :=
       {| FunctionName := DockerImageFunctionProps.functionName (fn id props);
          Payload := payload (config props) |};
     physicalResourceId := id ++ "-AwsSdkCall-" ++ identityToken id props |}.

Definition role : Role :=
  addToPolicy
    {| assumedBy := "lambda.amazonaws.com"; statements := [] |}
    {| resources := ["*"]; actions := ["lambda:InvokeFunction"] |}.

(** The constructor of [CdkResourceInitializer]. *)
Definition new (id : string) (props : CdkResourceInitializerProps)
  : CdkResourceInitializer :=
  let cr :=
    {| AwsCustomResourceProps.policy := ANY_RESOURCE;
       AwsCustomResourceProps.onUpdate := sdkCall id props;
       AwsCustomResourceProps.timeout := Duration_minutes 10;
       AwsCustomResourceProps.role := role |} in
  {| response := getResponseField cr "Payload";
     customResource := cr;
     function := fn id props |}.

End Constructor.

End Trigger.

(* ====================================================================== *)
(** ** src/demos/rds-init-fn-code/index.js *)

Module Handler.

(** *** The libraries the Handler calls *)

(** The object [mysql.createConnection(options)] returns. *)
Record connection : Type := { options : value }.

(** A synchronous library call returns, or raises an [Error]. *)
Inductive lib_result (A : Type) : Type :=
| Returns (a : A)
| Raises (name message : string).
Arguments Returns {A} a.
Arguments Raises {A} name message.

(** The arguments with which a library invokes a Node-style callback
    [(err, data) => ...].  It invokes the callback once, and does not
    handle what the callback throws (aws-sdk raises it again). *)
Inductive callback_args : Type :=
| Callback (err data : value).

(** What lies outside the Handler in one invocation: the secret store
    behind the AWS SDK, the database behind the mysql client, and the
    file system of the deployed artifact. *)
Record World : Type :=
  { dirname : string;
    secrets_getSecretValue : value -> callback_args;
    connection_connect : connection -> lib_result unit;
    fs_readFileSync : string -> lib_result string;
    connection_query : connection -> string -> callback_args }.

(** The library calls of an invocation, in order. *)
Inductive event : Type :=
| GetSecretValue (params : value)
| CreateConnection (opts : value)
| Connect (c : connection)
| ReadFileSync (path : string)
| Query (c : connection) (sql : string).

(** *** Promises and the evaluation of an async function body *)

(** The state a promise reaches.  [NeverSettles x]: neither [resolve] nor
    [reject] is ever called, because the exception [x] left the callback
    that was to call them; [x] is raised on the library's stack, outside
    every promise. *)
Inductive promise : Type :=
| Resolved (v : value)
| RejectedWith (reason : value)
| NeverSettles (uncaught : value).

(** Result of evaluating a piece of an async function body: a value, a
    throw that an enclosing [try] can catch, or an [await] that never
    resumes. *)
Inductive result (A : Type) : Type :=
| Done (a : A)
| Thrown (v : value)
| Suspended (uncaught : value).
Arguments Done {A} a.
Arguments Thrown {A} v.
Arguments Suspended {A} uncaught.

(** Evaluation appends to the trace of library calls. *)
Definition M (A : Type) : Type := list event -> result A * list event.

Definition ret {A : Type} (a : A) : M A := fun tr => (Done a, tr).

Definition mbind {A B : Type} (m : M A) (k : A -> M B) : M B :=
  fun tr =>
    match m tr with
    | (Done a, tr') => k a tr'
    | (Thrown v, tr') => (Thrown v, tr')
    | (Suspended x, tr') => (Suspended x, tr')
    end.

Declare Scope js_scope.
Delimit Scope js_scope with js.
Notation "x <- m ;; k" := (mbind m (fun x => k))
  (at level 61, m at next level, right associativity) : js_scope.
Notation "m ;; k" := (mbind m (fun _ => k))
  (at level 61, right associativity) : js_scope.
Local Open Scope js_scope.

Definition emit (ev : event) : M unit := fun tr => (Done tt, tr ++ [ev]).

(** A language-level evaluation inside the body. *)
Definition lift {A : Type} (c : completion A) : M A :=
  fun tr =>
    match c with
    | Normal a => (Done a, tr)
    | Throw v => (Thrown v, tr)
    end.

(** A synchronous library call. *)
Definition call {A : Type} (r : lib_result A) : M A :=
  fun tr =>
    match r with
    | Returns a => (Done a, tr)
    | Raises name message => (Thrown (VError name message), tr)
    end.

(** [await p] *)
Definition await (p : promise) : M value :=
  fun tr =>
    match p with
    | Resolved v => (Done v, tr)
    | RejectedWith reason => (Thrown reason, tr)
    | NeverSettles x => (Suspended x, tr)
    end.

(** [try { body } catch (err) { handler err }] *)
Definition try_catch {A : Type} (body : M A) (handler : value -> M A) : M A :=
  fun tr =>
    match body tr with
    | (Thrown err, tr') => handler err tr'
    | other => other
    end.

(** [path.join(dir, file)] for an absolute, normalized [dir]. *)
Definition path_join (dir file : string) : string :=
  if String.eqb dir "/" then "/" ++ file else dir ++ "/" ++ file.

(** *** The functions of index.js *)

(** function getSecretValue (secretId).  The executor of the promise only
    hands the SDK a callback and returns; the SDK runs the callback later,
    on its own stack.  [reject(err)] and [resolve(...)] settle the promise.
    An exception of [data.SecretString] or of [JSON.parse] is thrown out
    of the callback: the executor has returned, so the promise does not
    turn it into a rejection, and neither [resolve] nor [reject] runs. *)
Definition getSecretValue (w : World) (secretId : value) : M promise :=
  let params := VObj [("SecretId", secretId)] in
  emit (GetSecretValue params) ;;
  match secrets_getSecretValue w params with
  | Callback err data =>
      if ToBoolean err then ret (RejectedWith err)
      else
        match bind (GetV data "SecretString") JSON_parse with
        | Normal v => ret (Resolved v)
        | Throw x => ret (NeverSettles x)
        end
  end.

(** function query (connection, sql) *)
Definition query (w : World) (c : connection) (sql : string) : M promise :=
  emit (Query c sql) ;;
  match connection_query w c sql with
  | Callback error res =>
      if ToBoolean error then ret (RejectedWith error)
      else ret (Resolved res)
  end.

Definition createConnection (opts : value) : M connection :=
  emit (CreateConnection opts) ;;
  ret {| options := opts |}.

Definition connect (w : World) (c : connection) : M unit :=
  emit (Connect c) ;;
  call (connection_connect w c).

Definition readFileSync (w : World) (path : string) : M string :=
  emit (ReadFileSync path) ;;
  call (fs_readFileSync w path).

(** The [try] block of [exports.handler]. *)
Definition handler_try (w : World) (e : value) : M value :=
  params <- lift (GetV e "params") ;;
  lift (RequireObjectCoercible params "config") ;;
  config <- lift (GetV params "config") ;;
  credsSecretName <- lift (GetV config "credsSecretName") ;;
  p <- getSecretValue w credsSecretName ;;
  creds <- await p ;;
  lift (RequireObjectCoercible creds "password") ;;
  password <- lift (GetV creds "password") ;;
  username <- lift (GetV creds "username") ;;
  host <- lift (GetV creds "host") ;;
  connection <- createConnection
                  (VObj [("host", host);
                         ("user", username);
                         ("password", password);
                         ("multipleStatements", VBool true)]) ;;
  connect w connection ;;
  sqlScript <- readFileSync w (path_join (dirname w) "script.sql") ;;
  q <- query w connection sqlScript ;;
  res <- await q ;;
  ret (VObj [("status", VStr "OK"); ("results", res)]).

(** The [catch] block of [exports.handler]. *)
Definition handler_catch (err : value) : M value :=
  message <- lift (GetV err "message") ;;
  ret (VObj [("status", VStr "ERROR"); ("err", err); ("message", message)]).

(** [exports.handler = async (e) => { try { ... } catch (err) { ... } }] *)
Definition handler (w : World) (e : value) : M value :=
  try_catch (handler_try w e) handler_catch.

(** What the caller of the async function observes: the promise it
    returned is fulfilled with a response, is rejected, or is never
    settled while an exception goes uncaught in the process. *)
Inductive outcome : Type :=
| Fulfilled (response : value)
| Rejected (reason : value)
| Crashed (uncaught : value).

Definition invoke (w : World) (e : value) : outcome * list event :=
  match handler w e [] with
  | (Done v, tr) => (Fulfilled v, tr)
  | (Thrown x, tr) => (Rejected x, tr)
  | (Suspended x, tr) => (Crashed x, tr)
  end.

(** The structured responses. *)
Definition ok_response (results : value) : value :=
  VObj [("status", VStr "OK"); ("results", results)].

Definition error_response (err message : value) : value :=
  VObj [("status", VStr "ERROR"); ("err", err); ("message", message)].

End Handler.

(* ====================================================================== *)
(** ** The demonstration stack (src/demos/rds-init-example.ts) and a
       deployment to run the Handler in *)

Module Demo.
Import Cdk Trigger Handler.

Definition vpc : IVpc := {| vpcId := "MyVPC" |}.

(** [`/${id}/rds/creds/${instanceIdentifier}`.toLowerCase()] for the stack
    identifier RdsInitExample of src/bin/rds-init-example.ts. *)
Definition credsSecretName : string := "/rdsinitexample/rds/creds/mysql-01".

(** The properties [RdsInitStackExample] passes to the Trigger. *)
Definition props : CdkResourceInitializerProps :=
  {| Trigger.vpc := vpc;
     subnetsSelection :=
       {| subnetType := Some PRIVATE_WITH_NAT; onePerAz := None |};
     fnSecurityGroups := [];
     fnTimeout := Duration_minutes 2;
     fnCode := {| imageAsset := "rds-init-fn-code" |};
     fnLogRetention := 150;
     fnMemorySize := None;
     config := VObj [("credsSecretName", VStr credsSecretName)] |}.

Definition with_memory (m : option number) (p : CdkResourceInitializerProps)
  : CdkResourceInitializerProps :=
  {| Trigger.vpc := Trigger.vpc p;
     subnetsSelection := subnetsSelection p;
     fnSecurityGroups := fnSecurityGroups p;
     fnTimeout := fnTimeout p;
     fnCode := fnCode p;
     fnLogRetention := fnLogRetention p;
     fnMemorySize := m;
     config := config p |}.

Definition with_config (c : value) (p : CdkResourceInitializerProps)
  : CdkResourceInitializerProps :=
  {| Trigger.vpc := Trigger.vpc p;
     subnetsSelection := subnetsSelection p;
     fnSecurityGroups := fnSecurityGroups p;
     fnTimeout := fnTimeout p;
     fnCode := fnCode p;
     fnLogRetention := fnLogRetention p;
     fnMemorySize := fnMemorySize p;
     config := c |}.

(** [duration.toSeconds()] *)
Definition toSeconds (d : Duration) : number :=
  match unit d with
  | Milliseconds => Finite (amount d) (-3)
  | Seconds => Int (amount d)
  | Minutes => Int (60 * amount d)
  | Hours => Int (3600 * amount d)
  | Days => Int (86400 * amount d)
  end.

Definition subnetType_name (t : SubnetType) : string :=
  match t with
  | PUBLIC => "Public"
  | PRIVATE_WITH_NAT => "Private"
  | PRIVATE_ISOLATED => "Isolated"
  end.

(** The subnets a selection stands for, by what selects them. *)
Definition subnets (sel : SelectedSubnets) : value :=
  VObj [("vpc", VStr (vpcId (selectedFrom sel)));
        ("subnetType",
         match subnetType (selection sel) with
         | Some t => VStr (subnetType_name t)
         | None => VUndefined
         end);
        ("onePerAz",
         match onePerAz (selection sel) with
         | Some b => VBool b
         | None => VUndefined
         end)].

(** The properties of the function resource that the CDK renders from a
    [DockerImageFunction]: its image, name, memory size, timeout and
    network placement. *)
Definition functionResource (f : DockerImageFunction) : value :=
  VObj [("Code",
         VObj [("ImageUri", VStr (imageAsset (DockerImageFunctionProps.code f)))]);
        ("FunctionName", VStr (DockerImageFunctionProps.functionName f));
        ("MemorySize", VNum (DockerImageFunctionProps.memorySize f));
        ("PackageType", VStr "Image");
        ("Timeout", VNum (toSeconds (DockerImageFunctionProps.timeout f)));
        ("VpcConfig",
         VObj [("SecurityGroupIds",
                VArr (map (fun g => VStr (SecurityGroupProps.securityGroupName g))
                          (DockerImageFunctionProps.securityGroups f)));
               ("SubnetIds", subnets (DockerImageFunctionProps.vpcSubnets f))])].

(** A model of [calculateFunctionHash] of @aws-cdk/aws-lambda, which is a
    library and no code of this repository.  The CDK digests, with MD5,
    the JSON text of the function resource it renders: the hash covers
    the configuration of the function as well as its image.  The digest
    is that of the properties as [functionResource] holds them, so its
    digits are not those the CDK computes; what it depends on is. *)
Definition functionHash (f : DockerImageFunction) : string :=
  MD5.hex (match JSON_stringify (functionResource f) with
           | Some text => text
           | None => "undefined"
           end).

(** The [k] hexadecimal digits of [n], lowest first: for [k] = 33, a
    config string for each number below 16 ^ 33. *)
Fixpoint hex_digits (k : nat) (n : Z) : string :=
  match k with
  | O => EmptyString
  | S k' => String (hex_digit (n mod 16)) (hex_digits k' (n / 16))
  end.


(** The event the lifecycle system delivers: the parsed payload. *)
Definition event_for (p : CdkResourceInitializerProps) : value :=
  match JSON_parse_text (payload (config p)) with
  | Normal e => e
  | Throw _ => VUndefined
  end.

(** A secret store: secret identifiers and their secret strings. *)
Definition secret_store : Type := list (string * string).

Fixpoint find_secret (id : string) (st : secret_store) : option string :=
  match st with
  | [] => None
  | (k, s) :: rest => if String.eqb id k then Some s else find_secret id rest
  end.

(** The SDK over a store: a missing secret is reported to the callback as
    a ResourceNotFoundException. *)
Definition sdk_over (st : secret_store) (params : value) : callback_args :=
  match GetV params "SecretId" with
  | Normal (VStr id) =>
      match find_secret id st with
      | Some s => Callback VNull (VObj [("Name", VStr id); ("SecretString", VStr s)])
      | None =>
          Callback (VError "ResourceNotFoundException"
                           "Secrets Manager can't find the specified secret.")
                   VNull
      end
  | _ =>
      Callback (VError "MissingRequiredParameter"
                       "Missing required key 'SecretId' in params")
               VNull
  end.

(** A database that answers [script] with [rows] and any other text with
    a parse error. *)
Definition db_answering (script : string) (rows : value)
           (c : connection) (sql : string) : callback_args :=
  if String.eqb sql script then Callback VNull rows
  else Callback (VError "ER_PARSE_ERROR" "You have an error in your SQL syntax")
                VUndefined.

Definition script : string := "SELECT 1;".

Definition rows : value := VArr [VObj [("1", VNum (Int 1))]].

Definition world (st : secret_store) : World :=
  {| dirname := "/var/task";
     secrets_getSecretValue := sdk_over st;
     connection_connect := fun _ => Returns tt;
     fs_readFileSync := fun path =>
       if String.eqb path "/var/task/script.sql" then Returns script
       else Raises "Error" ("ENOENT: no such file or directory, open '" ++ path ++ "'");
     connection_query := db_answering script rows |}.

(** The credential of the spec's scenario. *)
Definition good_secret : string :=
  json_text "{'username':'admin','password':'p','host':'h'}".

Definition good_store : secret_store := [(credsSecretName, good_secret)].

(** A secret whose string is not JSON. *)
Definition malformed_store : secret_store :=
  [(credsSecretName, "admin:p@h")].

(** A secret whose JSON text is cut short. *)
Definition truncated_store : secret_store :=
  [(credsSecretName, json_text "{'username':'admin','password':'p")].

Definition empty_store : secret_store := [].

End Demo.

(* ====================================================================== *)
(** ** Vocabulary of the Handler's properties *)

Module HandlerSpec.
Import Handler.

(** The invocation reads the secret reference [ref] out of the event [e]:
    [e.params.config.credsSecretName] evaluates to [ref]. *)
Definition reads_reference (e ref : value) : Prop :=
  exists params config,
    GetV e "params" = Normal params
    /\ GetV params "config" = Normal config
    /\ GetV config "credsSecretName" = Normal ref.

(** The request the Handler sends to the secret store for [ref]. *)
Definition secret_request (ref : value) : value := VObj [("SecretId", ref)].

(** The secret store answers the request for [ref] with the error [err]. *)
Definition unresolvable (w : World) (ref err : value) : Prop :=
  exists data,
    secrets_getSecretValue w (secret_request ref) = Callback err data
    /\ ToBoolean err = true.

(** The secret store answers the request for [ref] with a secret whose
    string decodes to [creds]. *)
Definition resolves_to (w : World) (ref creds : value) : Prop :=
  exists err data secretString,
    secrets_getSecretValue w (secret_request ref) = Callback err data
    /\ ToBoolean err = false
    /\ GetV data "SecretString" = Normal secretString
    /\ JSON_parse secretString = Normal creds.

(** The secret store answers the request for [ref] with a secret whose
    string does not decode: reading it or parsing it throws [x]. *)
Definition undecodable (w : World) (ref x : value) : Prop :=
  exists err data,
    secrets_getSecretValue w (secret_request ref) = Callback err data
    /\ ToBoolean err = false
    /\ bind (GetV data "SecretString") JSON_parse = Throw x.

(** A value that has properties to read: neither undefined nor null. *)
Definition object_coercible (v : value) : Prop :=
  v <> VUndefined /\ v <> VNull.

(** A decoded credential: an object with username, password and host. *)
Definition is_credential (creds : value) : Prop :=
  exists fields,
    creds = VObj fields
    /\ lookup "username" fields <> None
    /\ lookup "password" fields <> None
    /\ lookup "host" fields <> None.

(** The connection options the Handler builds from a credential. *)
Definition options_for (creds : value) : value :=
  VObj [("host", match GetV creds "host" with Normal x => x | Throw _ => VUndefined end);
        ("user", match GetV creds "username" with Normal x => x | Throw _ => VUndefined end);
        ("password", match GetV creds "password" with Normal x => x | Throw _ => VUndefined end);
        ("multipleStatements", VBool true)].

(** The bundled script is in place and runs without error on the
    connection opened for [creds], giving the result set [res]. *)
Definition script_runs (w : World) (creds res : value) : Prop :=
  let c := {| options := options_for creds |} in
  exists sql error,
    connection_connect w c = Returns tt
    /\ fs_readFileSync w (path_join (dirname w) "script.sql") = Returns sql
    /\ connection_query w c sql = Callback error res
    /\ ToBoolean error = false.

(** A result set of the mysql client: the rows of a statement, the packet
    of a statement without rows, or one of these per statement. *)
Definition is_result_set (res : value) : Prop :=
  match res with
  | VArr _ | VObj _ => True
  | _ => False
  end.

(** The options of the connections an invocation created, and the
    connections it opened, in order. *)
Fixpoint created (tr : list event) : list value :=
  match tr with
  | [] => []
  | CreateConnection opts :: rest => opts :: created rest
  | _ :: rest => created rest
  end.

Fixpoint opened (tr : list event) : list connection :=
  match tr with
  | [] => []
  | Connect c :: rest => c :: opened rest
  | _ :: rest => opened rest
  end.

(** The response is one of the two structured responses. *)
Definition structured (response : value) : Prop :=
  (exists results, response = ok_response results)
  \/ (exists err message, response = error_response err message).

End HandlerSpec.

(* ====================================================================== *)
(** ** src/demos/rds-init-example.ts *)

(** A test on every character of a string. *)
Fixpoint string_forall (p : ascii -> bool) (s : string) : bool :=
  match s with
  | EmptyString => true
  | String c r => p c && string_forall p r
  end.

Definition is_ascii_char (c : ascii) : bool := code c <? 128.
Definition is_upper (c : ascii) : bool := (65 <=? code c) && (code c <=? 90).

(** Text of ASCII characters only. *)
Definition is_ascii (s : string) : bool := string_forall is_ascii_char s.

Definition lower_char (c : ascii) : ascii :=
  if is_upper c then char_of (code c + 32) else c.

(** [s.toLowerCase()] on ASCII text: the letters A to Z are mapped, every
    other ASCII character is kept.  (A byte from 128 on is part of a
    character outside ASCII, whose mapping is not modelled: the
    properties below are stated for ASCII text.) *)
Fixpoint toLowerCase (s : string) : string :=
  match s with
  | EmptyString => EmptyString
  | String c r => String (lower_char c) (toLowerCase r)
  end.

Module Stack.
Import Cdk Trigger.

Definition instanceIdentifier : string := "mysql-01".

(** [`/${id}/rds/creds/${instanceIdentifier}`.toLowerCase()] *)
Definition credsSecretName (id : string) : string :=
  toLowerCase ("/" ++ id ++ "/rds/creds/" ++ instanceIdentifier).

(** The properties of [new DatabaseSecret(...)]. *)
Record DatabaseSecretProps : Type :=
  { secretName : string; username : string }.

Definition creds (id : string) : DatabaseSecretProps :=
  {| secretName := credsSecretName id; username := "admin" |}.

(** The properties the stack passes to the Trigger: those of [Demo.props]
    with the config of the stack [id]. *)
Definition initializerProps (id : string) : CdkResourceInitializerProps :=
  Demo.with_config (VObj [("credsSecretName", VStr (credsSecretName id))]) Demo.props.

(** [new CdkResourceInitializer(this, 'MyRdsInit', { ... })] *)
Definition initializer (calculateFunctionHash : DockerImageFunction -> string)
           (id : string) : CdkResourceInitializer :=
  Trigger.new calculateFunctionHash "MyRdsInit" (initializerProps id).

End Stack.

(* ====================================================================== *)
(** ** Vocabulary of the further properties *)

Module Calls.
Import Handler HandlerSpec.

(** [path.join(__dirname, 'script.sql')] *)
Definition script_path (w : World) : string := path_join (dirname w) "script.sql".

(** The library calls up to the opening of the connection for [creds]. *)
Definition opening_calls (ref creds : value) : list event :=
  [GetSecretValue (secret_request ref);
   CreateConnection (options_for creds);
   Connect {| options := options_for creds |}].

(** The library calls of an invocation that runs to its end. *)
Definition all_calls (w : World) (ref creds : value) (sql : string) : list event :=
  opening_calls ref creds
  ++ [ReadFileSync (script_path w); Query {| options := options_for creds |} sql].


(** The invocations there are: what an invocation returns and which
    library calls it makes, by what the event holds and what the
    libraries answer. *)
Inductive invocation (w : World) (e : value) : outcome * list event -> Prop :=
| inv_malformed_event (msg : string) :
    (forall ref, ~ reads_reference e ref) ->
    invocation w e (Fulfilled (error_response (TypeError msg) (VStr msg)), [])
| inv_unresolvable (ref err m : value) :
    reads_reference e ref -> unresolvable w ref err ->
    GetV err "message" = Normal m ->
    invocation w e (Fulfilled (error_response err m),
                    [GetSecretValue (secret_request ref)])
| inv_undecodable (ref x : value) :
    reads_reference e ref -> undecodable w ref x ->
    invocation w e (Crashed x, [GetSecretValue (secret_request ref)])
| inv_not_object (ref creds : value) (msg : string) :
    reads_reference e ref -> resolves_to w ref creds ->
    ~ object_coercible creds ->
    invocation w e (Fulfilled (error_response (TypeError msg) (VStr msg)),
                    [GetSecretValue (secret_request ref)])
| inv_connect_fails (ref creds : value) (name message : string) :
    reads_reference e ref -> resolves_to w ref creds -> object_coercible creds ->
    connection_connect w {| options := options_for creds |} = Raises name message ->
    invocation w e (Fulfilled (error_response (VError name message) (VStr message)),
                    opening_calls ref creds)
| inv_read_fails (ref creds : value) (name message : string) :
    reads_reference e ref -> resolves_to w ref creds -> object_coercible creds ->
    connection_connect w {| options := options_for creds |} = Returns tt ->
    fs_readFileSync w (script_path w) = Raises name message ->
    invocation w e (Fulfilled (error_response (VError name message) (VStr message)),
                    opening_calls ref creds ++ [ReadFileSync (script_path w)])
| inv_query_fails (ref creds : value) (sql : string) (error res m : value) :
    reads_reference e ref -> resolves_to w ref creds -> object_coercible creds ->
    connection_connect w {| options := options_for creds |} = Returns tt ->
    fs_readFileSync w (script_path w) = Returns sql ->
    connection_query w {| options := options_for creds |} sql = Callback error res ->
    ToBoolean error = true ->
    GetV error "message" = Normal m ->
    invocation w e (Fulfilled (error_response error m), all_calls w ref creds sql)
| inv_ok (ref creds : value) (sql : string) (error res : value) :
    reads_reference e ref -> resolves_to w ref creds -> object_coercible creds ->
    connection_connect w {| options := options_for creds |} = Returns tt ->
    fs_readFileSync w (script_path w) = Returns sql ->
    connection_query w {| options := options_for creds |} sql = Callback error res ->
    ToBoolean error = false ->
    invocation w e (Fulfilled (ok_response res), all_calls w ref creds sql).


End Calls.

(** Deployments in which one library fails, to run the Handler in. *)
Module Scenario.
Import Handler.

(** A secret whose string is the JSON text null. *)
Definition null_store : Demo.secret_store := [(Demo.credsSecretName, "null")].



(** The artifact was deployed without its script. *)
Definition without_script (w : World) : World :=
  {| dirname := dirname w;
     secrets_getSecretValue := secrets_getSecretValue w;
     connection_connect := connection_connect w;
     fs_readFileSync := fun path =>
       Raises "Error" ("ENOENT: no such file or directory, open '" ++ path ++ "'");
     connection_query := connection_query w |}.

(** The database finds an error in every statement. *)
Definition rejecting (w : World) : World :=
  {| dirname := dirname w;
     secrets_getSecretValue := secrets_getSecretValue w;
     connection_connect := connection_connect w;
     fs_readFileSync := fs_readFileSync w;
     connection_query := fun _ _ =>
       Callback (VError "ER_PARSE_ERROR" "You have an error in your SQL syntax")
                VUndefined |}.

(** The credential of [Demo.good_secret], decoded. *)
Definition good_creds : value :=
  VObj [("username", VStr "admin"); ("password", VStr "p"); ("host", VStr "h")].

End Scenario.

(** The token ends the physical resource id: hexadecimal digits. *)
Definition is_hex_digit (c : ascii) : bool :=
  ((48 <=? code c) && (code c <=? 57)) || ((97 <=? code c) && (code c <=? 102)).

(* ====================================================================== *)
(** * Properties *)

(** ** MD5 against the RFC 1321 test suite *)

Example md5_empty : MD5.hex "" = "d41d8cd98f00b204e9800998ecf8427e".
Proof. vm_compute. reflexivity. Qed.

Example md5_abc : MD5.hex "abc" = "900150983cd24fb0d6963f7d28e17f72".
Proof. vm_compute. reflexivity. Qed.

Example md5_alphabet :
  MD5.hex "abcdefghijklmnopqrstuvwxyz" = "c3fcd3d76192e4007dfb496cca67e13b".
Proof. vm_compute. reflexivity. Qed.

Example md5_two_blocks :
  MD5.hex "12345678901234567890123456789012345678901234567890123456789012345678901234567890"
  = "57edf4a22be3c955ac49da2e2107b67a".
Proof. vm_compute. reflexivity. Qed.

(** ** Strings *)

Lemma length_append (a b : string) :
  String.length (a ++ b) = (String.length a + String.length b)%nat.
Proof. induction a as [ | c a IH]; simpl; [reflexivity | now rewrite IH]. Qed.

Lemma append_assoc (a b c : string) :
  ((a ++ b) ++ c)%string = (a ++ (b ++ c))%string.
Proof. induction a as [ | x a IH]; simpl; [reflexivity | now rewrite IH]. Qed.

Lemma append_inv_same_length (a a' b b' : string) :
  String.length a = String.length a' ->
  (a ++ b)%string = (a' ++ b')%string -> a = a' /\ b = b'.
Proof.
  revert a'. induction a as [ | c a IH]; intros [ | c' a'] Hlen Happ;
    simpl in *; try discriminate.
  - split; [reflexivity | exact Happ].
  - inversion Happ; subst. inversion Hlen as [Hl].
    destruct (IH a' Hl H1) as [-> ->]. split; reflexivity.
Qed.

(** ** JSON.parse: the recursion budget *)

Lemma skip_ws_length (s : string) :
  (String.length (skip_ws s) <= String.length s)%nat.
Proof.
  induction s as [ | c s IH]; simpl; [lia | ].
  destruct (is_ws c); simpl; lia.
Qed.

Lemma opt_char_length (c : ascii) (s : string) (b : bool) (r : string) :
  opt_char c s = (b, r) ->
  if b then String.length s = S (String.length r) else r = s.
Proof.
  destruct s as [ | c' s]; simpl.
  - intros H; inversion H; reflexivity.
  - destruct (Ascii.eqb c c'); intros H; inversion H; reflexivity.
Qed.

Lemma span_digits_length (s : string) (ds : list ascii) (r : string) :
  span_digits s = (ds, r) ->
  String.length s = (List.length ds + String.length r)%nat.
Proof.
  revert ds r. induction s as [ | c s IH]; simpl; intros ds r H.
  - inversion H; reflexivity.
  - destruct (is_digit c).
    + destruct (span_digits s) as [ds' r'] eqn:E. inversion H; subst.
      simpl. rewrite (IH _ _ eq_refl). reflexivity.
    + inversion H; subst. reflexivity.
Qed.

Lemma digits1_length (s : string) (ds : list ascii) (r : string) :
  digits1 s = Some (ds, r) -> (String.length r < String.length s)%nat.
Proof.
  unfold digits1. destruct (span_digits s) as [[ | d ds'] r'] eqn:E;
    intros H; inversion H; subst.
  apply span_digits_length in E. simpl in E. lia.
Qed.

Lemma int_digits_length (s : string) (ds : list ascii) (r : string) :
  int_digits s = Some (ds, r) -> (String.length r < String.length s)%nat.
Proof.
  unfold int_digits. destruct (opt_char "0" s) as [b r'] eqn:E.
  apply opt_char_length in E. destruct b; intros H.
  - inversion H; subst. lia.
  - exact (digits1_length _ _ _ H).
Qed.

Lemma frac_digits_length (s : string) (ds : list ascii) (r : string) :
  frac_digits s = Some (ds, r) -> (String.length r <= String.length s)%nat.
Proof.
  unfold frac_digits. destruct (opt_char "." s) as [b r'] eqn:E.
  apply opt_char_length in E. destruct b; intros H.
  - apply digits1_length in H. lia.
  - inversion H; subst. lia.
Qed.

Lemma exponent_length (s : string) (ex : Z) (r : string) :
  exponent s = Some (ex, r) -> (String.length r <= String.length s)%nat.
Proof.
  unfold exponent. destruct s as [ | c s]; [intros H; inversion H; subst; simpl; lia | ].
  destruct (Ascii.eqb c "e" || Ascii.eqb c "E").
  - destruct (opt_char "-" s) as [minus r1] eqn:E1. apply opt_char_length in E1.
    destruct minus.
    + destruct (digits1 r1) as [[eds r3] | ] eqn:E3; intros H; inversion H; subst.
      apply digits1_length in E3. simpl. lia.
    + destruct (opt_char "+" s) as [plus r2] eqn:E2. apply opt_char_length in E2.
      destruct (digits1 r2) as [[eds r3] | ] eqn:E3; intros H; inversion H; subst.
      apply digits1_length in E3. simpl. destruct plus; subst; lia.
  - intros H; inversion H; subst. lia.
Qed.

Lemma parse_number_length (s : string) (n : number) (r : string) :
  parse_number s = Some (n, r) -> (String.length r < String.length s)%nat.
Proof.
  unfold parse_number. destruct (opt_char "-" s) as [neg s1] eqn:E1.
  apply opt_char_length in E1.
  destruct (int_digits s1) as [[ids s2] | ] eqn:E2; [ | discriminate].
  destruct (frac_digits s2) as [[fds s3] | ] eqn:E3; [ | discriminate].
  destruct (exponent s3) as [[ex s4] | ] eqn:E4; [ | discriminate].
  intros H; inversion H; subst.
  apply int_digits_length in E2. apply frac_digits_length in E3.
  apply exponent_length in E4. destruct neg; subst; lia.
Qed.

Lemma strip_prefix_length (p s r : string) :
  strip_prefix p s = Some r -> (String.length r <= String.length s)%nat.
Proof.
  revert s. induction p as [ | a p IH]; intros [ | b s]; simpl; intros H;
    try discriminate; try (inversion H; subst; simpl; lia).
  destruct (Ascii.eqb a b); [ | discriminate]. apply IH in H. lia.
Qed.

Ltac items_step H IH :=
  match type of H with
  | (match parse_string_items ?x with _ => _ end) = _ =>
      let E := fresh "E" in
      destruct (parse_string_items x) as [[? ?] | ] eqn:E;
      [apply IH in E; [ | cbn [String.length] in *; lia] | ]
  | (match ?x with _ => _ end) = _ => destruct x eqn:?
  end; try discriminate.

Lemma parse_string_items_length_aux (n : nat) :
  forall s items r, (String.length s <= n)%nat ->
    parse_string_items s = Some (items, r) ->
    (String.length r < String.length s)%nat.
Proof.
  induction n as [ | n IH]; intros s items r Hn H.
  - destruct s; simpl in *; [discriminate | lia].
  - destruct s as [ | c s]; [discriminate | ].
    cbn [parse_string_items] in H. unfold cons_item in H.
    cbn [String.length] in Hn.
    repeat items_step H IH;
    inversion H; subst; cbn [String.length] in *; lia.
Qed.

Lemma parse_string_body_length (s t r : string) :
  parse_string_body s = Some (t, r) -> (String.length r < String.length s)%nat.
Proof.
  unfold parse_string_body.
  destruct (parse_string_items s) as [[items rest] | ] eqn:E; [ | discriminate].
  intros H; inversion H; subst.
  apply (parse_string_items_length_aux (String.length s) s items r); [lia | exact E].
Qed.

Lemma parse_shorter (fuel : nat) :
  (forall s, shorter (parse_value fuel s) s)
  /\ (forall s acc, shorter (parse_elements fuel s acc) s)
  /\ (forall s acc, shorter (parse_members fuel s acc) s).
Proof.
  induction fuel as [ | f (IHv & IHe & IHm)]; [repeat split; intros; exact I | ].
  assert (Hv : forall s, shorter (parse_value (S f) s) s).
  { intros s. cbn [parse_value].
    pose proof (skip_ws_length s) as Hws.
    destruct (skip_ws s) as [ | c r]; [exact I | ].
    cbn [String.length] in Hws.
    destruct (Ascii.eqb c "{").
    { destruct (opt_char "}" (skip_ws r)) as [closed r'] eqn:E.
      apply opt_char_length in E. pose proof (skip_ws_length r).
      destruct closed; [simpl; lia | ].
      specialize (IHm r []). destruct (parse_members f r []); simpl in *; try exact I. lia. }
    destruct (Ascii.eqb c "[").
    { destruct (opt_char "]" (skip_ws r)) as [closed r'] eqn:E.
      apply opt_char_length in E. pose proof (skip_ws_length r).
      destruct closed; [simpl; lia | ].
      specialize (IHe r []). destruct (parse_elements f r []); simpl in *; try exact I. lia. }
    destruct (Ascii.eqb c dquote).
    { destruct (parse_string_body r) as [[t rest] | ] eqn:E; [ | exact I].
      apply parse_string_body_length in E. simpl. lia. }
    destruct (Ascii.eqb c "t").
    { destruct (strip_prefix "rue" r) as [rest | ] eqn:E; [ | exact I].
      apply strip_prefix_length in E. simpl. lia. }
    destruct (Ascii.eqb c "f").
    { destruct (strip_prefix "alse" r) as [rest | ] eqn:E; [ | exact I].
      apply strip_prefix_length in E. simpl. lia. }
    destruct (Ascii.eqb c "n").
    { destruct (strip_prefix "ull" r) as [rest | ] eqn:E; [ | exact I].
      apply strip_prefix_length in E. simpl. lia. }
    destruct (parse_number (String c r)) as [[n rest] | ] eqn:E; [ | exact I].
    apply parse_number_length in E. cbn [String.length] in E. simpl. lia. }
  repeat split; [exact Hv | | ].
  - intros s acc. cbn [parse_elements].
    specialize (IHv s). destruct (parse_value f s) as [v r | | ]; try exact I.
    simpl in IHv. pose proof (skip_ws_length r) as Hws.
    destruct (skip_ws r) as [ | c r']; [exact I | ]. cbn [String.length] in Hws.
    destruct (Ascii.eqb c ",").
    { specialize (IHe r' (v :: acc)).
      destruct (parse_elements f r' (v :: acc)); simpl in *; try exact I. lia. }
    destruct (Ascii.eqb c "]"); [simpl; lia | exact I].
  - intros s acc. cbn [parse_members].
    pose proof (skip_ws_length s) as Hws.
    destruct (skip_ws s) as [ | q r]; [exact I | ]. cbn [String.length] in Hws.
    destruct (Ascii.eqb q dquote); [ | exact I].
    destruct (parse_string_body r) as [[k r1] | ] eqn:Ek; [ | exact I].
    apply parse_string_body_length in Ek.
    destruct (opt_char ":" (skip_ws r1)) as [colon r2] eqn:Ec.
    apply opt_char_length in Ec. pose proof (skip_ws_length r1).
    destruct colon; [ | exact I].
    specialize (IHv r2). destruct (parse_value f r2) as [v r3 | | ]; try exact I.
    simpl in IHv. pose proof (skip_ws_length r3) as Hws3.
    destruct (skip_ws r3) as [ | c r4]; [exact I | ]. cbn [String.length] in Hws3.
    destruct (Ascii.eqb c ",").
    { specialize (IHm r4 ((k, v) :: acc)).
      destruct (parse_members f r4 ((k, v) :: acc)); simpl in *; try exact I. lia. }
    destruct (Ascii.eqb c "}"); [simpl; lia | exact I].
Qed.

(** The recursion budget is never what stops the parser. *)
Lemma parse_budget_enough (fuel : nat) :
  (forall s, (2 * String.length s + 1 <= fuel)%nat -> parse_value fuel s <> PFuel)
  /\ (forall s acc, (2 * String.length s + 2 <= fuel)%nat ->
                    parse_elements fuel s acc <> PFuel)
  /\ (forall s acc, (2 * String.length s + 2 <= fuel)%nat ->
                    parse_members fuel s acc <> PFuel).
Proof.
  induction fuel as [ | f (IHv & IHe & IHm)]; [repeat split; intros; lia | ].
  repeat split.
  - intros s Hf. cbn [parse_value].
    pose proof (skip_ws_length s) as Hws.
    destruct (skip_ws s) as [ | c r]; [discriminate | ].
    cbn [String.length] in Hws.
    destruct (Ascii.eqb c "{").
    { destruct (opt_char "}" (skip_ws r)) as [closed r']; destruct closed;
        [discriminate | ].
      apply IHm. lia. }
    destruct (Ascii.eqb c "[").
    { destruct (opt_char "]" (skip_ws r)) as [closed r']; destruct closed;
        [discriminate | ].
      apply IHe. lia. }
    destruct (Ascii.eqb c dquote).
    { destruct (parse_string_body r) as [[t rest] | ]; discriminate. }
    destruct (Ascii.eqb c "t").
    { destruct (strip_prefix "rue" r); discriminate. }
    destruct (Ascii.eqb c "f").
    { destruct (strip_prefix "alse" r); discriminate. }
    destruct (Ascii.eqb c "n").
    { destruct (strip_prefix "ull" r); discriminate. }
    destruct (parse_number (String c r)) as [[n rest] | ]; discriminate.
  - intros s acc Hf. cbn [parse_elements].
    specialize (IHv s). pose proof (proj1 (parse_shorter f) s) as Hsh.
    destruct (parse_value f s) as [v r | | ]; [ | discriminate | apply IHv; lia].
    simpl in Hsh. pose proof (skip_ws_length r) as Hws.
    destruct (skip_ws r) as [ | c r']; [discriminate | ]. cbn [String.length] in Hws.
    destruct (Ascii.eqb c ","); [apply IHe; lia | ].
    destruct (Ascii.eqb c "]"); discriminate.
  - intros s acc Hf. cbn [parse_members].
    pose proof (skip_ws_length s) as Hws.
    destruct (skip_ws s) as [ | q r]; [discriminate | ]. cbn [String.length] in Hws.
    destruct (Ascii.eqb q dquote); [ | discriminate].
    destruct (parse_string_body r) as [[k r1] | ] eqn:Ek; [ | discriminate].
    apply parse_string_body_length in Ek.
    destruct (opt_char ":" (skip_ws r1)) as [colon r2] eqn:Ec.
    apply opt_char_length in Ec. pose proof (skip_ws_length r1).
    destruct colon; [ | discriminate].
    specialize (IHv r2). pose proof (proj1 (parse_shorter f) r2) as Hsh.
    destruct (parse_value f r2) as [v r3 | | ]; [ | discriminate | apply IHv; lia].
    simpl in Hsh. pose proof (skip_ws_length r3) as Hws3.
    destruct (skip_ws r3) as [ | c r4]; [discriminate | ]. cbn [String.length] in Hws3.
    destruct (Ascii.eqb c ","); [apply IHm; lia | ].
    destruct (Ascii.eqb c "}"); discriminate.
Qed.

(** The budget [JSON_parse_text] gives is enough for every text: a
    SyntaxError is never for want of budget. *)
Theorem parse_value_budget (text : string) :
  parse_value (parse_budget text) text <> PFuel.
Proof. apply (proj1 (parse_budget_enough (parse_budget text))). unfold parse_budget. lia. Qed.

(** ** JSON.parse undoes JSON.stringify *)

(** *** Integers *)

Lemma string_of_uint_chars (d : Decimal.uint) :
  list_ascii_of_string (NilEmpty.string_of_uint d) = uint_chars d.
Proof. induction d; cbn; try rewrite IHd; reflexivity. Qed.

Lemma to_uint_chars (n : N) :
  list_ascii_of_string (NilZero.string_of_uint (N.to_uint n))
  = uint_chars (N.to_uint n).
Proof.
  unfold NilZero.string_of_uint.
  destruct (N.to_uint n) eqn:E;
    try (rewrite <- E; rewrite string_of_uint_chars; reflexivity).
  exfalso. destruct n as [ | p]; cbn in E; [discriminate | ].
  exact (DecimalPos.Unsigned.to_uint_nonnil p E).
Qed.

Lemma Z_of_digits_acc (d : Decimal.uint) (p : positive) :
  fold_left (fun acc c => 10 * acc + (code c - 48)) (uint_chars d) (Zpos p)
  = Zpos (Pos.of_uint_acc d p).
Proof.
  revert p. induction d; intros p; cbn [uint_chars fold_left Pos.of_uint_acc];
    try reflexivity; rewrite <- IHd; f_equal;
    match goal with
    | |- context [code ?c - 48] =>
        let k := fresh "k" in
        set (k := code c - 48); vm_compute in k; subst k; lia
    end.
Qed.

Lemma Z_of_digits_uint (d : Decimal.uint) :
  Z_of_digits (uint_chars d) = Z.of_N (N.of_uint d).
Proof.
  unfold Z_of_digits, N.of_uint.
  induction d; cbn [uint_chars fold_left Pos.of_uint]; try reflexivity;
    try exact IHd; apply Z_of_digits_acc.
Qed.

Lemma Z_of_digits_of_Z (z : Z) : Z_of_digits (digits_of_Z z) = Z.abs z.
Proof.
  unfold digits_of_Z. rewrite to_uint_chars, Z_of_digits_uint.
  rewrite DecimalN.Unsigned.of_to. lia.
Qed.

Lemma uint_chars_digits (d : Decimal.uint) :
  Forall (fun c => is_digit c = true) (uint_chars d).
Proof. induction d; cbn [uint_chars]; constructor; try assumption; reflexivity. Qed.

(** The digits of a number other than zero do not start with a zero. *)
Lemma digits_of_Z_head (z : Z) :
  z <> 0 ->
  exists c ds, digits_of_Z z = c :: ds /\ Ascii.eqb "0" c = false.
Proof.
  intros Hz. unfold digits_of_Z. rewrite to_uint_chars.
  set (n := Z.to_N (Z.abs z)).
  assert (Hn : n <> 0%N) by (subst n; lia).
  assert (Hnorm : Decimal.unorm (N.to_uint n) = N.to_uint n).
  { rewrite <- (DecimalN.Unsigned.to_of (N.to_uint n)).
    rewrite DecimalN.Unsigned.of_to. reflexivity. }
  assert (Hhead : Decimal.nzhead (N.to_uint n) = N.to_uint n).
  { rewrite <- Hnorm at 2. symmetry. apply DecimalFacts.unorm_nzhead.
    intros Hnil. apply Hn.
    apply DecimalN.Unsigned.to_uint_inj. cbn [N.to_uint].
    rewrite <- Hnorm. apply DecimalFacts.unorm_0. exact Hnil. }
  destruct (N.to_uint n) as [ | d | d | d | d | d | d | d | d | d | d ] eqn:E;
    try (eexists; eexists; split; reflexivity).
  - discriminate Hnorm.
  - exfalso. exact (DecimalFacts.nzhead_nonzero _ _ Hhead).
Qed.

Lemma span_digits_chars (ds : list ascii) (rest : string) :
  Forall (fun c => is_digit c = true) ds ->
  ends_number rest = true ->
  span_digits (string_of_list_ascii ds ++ rest) = (ds, rest).
Proof.
  intros Hds Hrest. induction Hds as [ | c ds Hc _ IH].
  - cbn [string_of_list_ascii append]. destruct rest as [ | c r]; [reflexivity | ].
    cbn [span_digits]. cbn [ends_number] in Hrest.
    destruct (is_digit c); [discriminate | reflexivity].
  - cbn [string_of_list_ascii append span_digits]. rewrite Hc, IH. reflexivity.
Qed.

Lemma strip_zeros_spec (l : list ascii) (e : Z) :
  exists j : nat,
    strip_zeros l e = (skipn j l, e + Z.of_nat j)
    /\ l = repeat "0"%char j ++ skipn j l.
Proof.
  revert e. induction l as [ | c l IH]; intros e.
  - exists 0%nat. split; [cbn; f_equal; lia | reflexivity].
  - cbn [strip_zeros]. destruct (Ascii.eqb_spec c "0") as [-> | Hne].
    + destruct (IH (e + 1)) as (j & Hj & Hl). exists (S j). split.
      * rewrite Hj. cbn [skipn]. f_equal. lia.
      * cbn [repeat skipn app]. f_equal. exact Hl.
    + exists 0%nat. split; [cbn; f_equal; lia | reflexivity].
Qed.

(** An integer of at most 21 digits is written out in full. *)
Lemma Number_toString_integer (m : Z) :
  m <> 0 -> (List.length (digits_of_Z m) <= 21)%nat ->
  Number_toString (Finite m 0)
  = string_of_list_ascii ((if m <? 0 then ["-"%char] else []) ++ digits_of_Z m).
Proof.
  intros Hm Hlen. unfold Number_toString.
  destruct (Z.eqb_spec m 0) as [ | _]; [contradiction | ].
  destruct (strip_zeros_spec (rev (digits_of_Z m)) 0) as (j & Hstrip & Hrev).
  rewrite Hstrip. cbn zeta.
  set (ds := rev (skipn j (rev (digits_of_Z m)))).
  assert (Hds : digits_of_Z m = ds ++ repeat "0"%char j).
  { subst ds. rewrite <- (rev_involutive (digits_of_Z m)) at 1.
    rewrite Hrev at 1. rewrite rev_app_distr, rev_repeat. reflexivity. }
  assert (Hl : List.length (digits_of_Z m) = (List.length ds + j)%nat).
  { rewrite Hds, length_app, repeat_length. reflexivity. }
  replace (Z.of_nat (List.length ds) <=? Z.of_nat (List.length ds) + (0 + Z.of_nat j))
    with true by (symmetry; apply Z.leb_le; lia).
  replace (Z.of_nat (List.length ds) + (0 + Z.of_nat j) <=? 21)
    with true by (symmetry; apply Z.leb_le; lia).
  cbn [andb]. do 2 f_equal. rewrite Hds. f_equal.
  unfold zeros. f_equal. lia.
Qed.

Lemma frac_digits_ends (rest : string) :
  ends_number rest = true -> frac_digits rest = Some ([], rest).
Proof.
  destruct rest as [ | c r]; [reflexivity | ].
  cbn [ends_number]. unfold frac_digits, opt_char. intros H.
  rewrite Ascii.eqb_sym.
  destruct (Ascii.eqb c "."); [ | reflexivity].
  rewrite !orb_true_r in H; discriminate.
Qed.

Lemma exponent_ends (rest : string) :
  ends_number rest = true -> exponent rest = Some (0, rest).
Proof.
  destruct rest as [ | c r]; [reflexivity | ].
  cbn [ends_number exponent]. intros H.
  destruct (Ascii.eqb c "e" || Ascii.eqb c "E") eqn:E; [ | reflexivity].
  exfalso. apply negb_true_iff in H.
  rewrite <- !orb_assoc in H. apply orb_false_iff in H. destruct H as [_ H].
  apply orb_false_iff in H. destruct H as [_ H]. congruence.
Qed.

Lemma digit_not_minus (c : ascii) :
  is_digit c = true -> Ascii.eqb "-" c = false.
Proof. destruct c as [[] [] [] [] [] [] [] []]; cbn; congruence. Qed.

Lemma int_digits_chars (c : ascii) (ds : list ascii) (rest : string) :
  Forall (fun c => is_digit c = true) (c :: ds) ->
  Ascii.eqb "0" c = false ->
  ends_number rest = true ->
  int_digits (string_of_list_ascii (c :: ds) ++ rest) = Some (c :: ds, rest).
Proof.
  intros Hall Hc Hrest. unfold int_digits, digits1.
  rewrite (span_digits_chars _ _ Hall Hrest).
  cbn [string_of_list_ascii append opt_char]. rewrite Hc. reflexivity.
Qed.

(** The digits of an integer, followed by text that does not continue a
    number, are read as that integer. *)
Lemma parse_number_integer (m : Z) (rest : string) :
  is_json_integer (Finite m 0) = true ->
  ends_number rest = true ->
  parse_number (Number_toString (Finite m 0) ++ rest) = Some (Finite m 0, rest).
Proof.
  intros Hint Hrest. cbn [is_json_integer] in Hint.
  apply andb_prop in Hint. destruct Hint as [_ Hlen]. apply Nat.leb_le in Hlen.
  destruct (Z.eq_dec m 0) as [-> | Hm].
  { unfold Number_toString, parse_number. cbn [Z.eqb append opt_char].
    change (Ascii.eqb "-" "0") with false. cbn iota.
    unfold int_digits. cbn [opt_char]. change (Ascii.eqb "0" "0") with true.
    cbn iota. rewrite (frac_digits_ends _ Hrest), (exponent_ends _ Hrest).
    reflexivity. }
  rewrite (Number_toString_integer m Hm Hlen).
  destruct (digits_of_Z_head m Hm) as (c & ds & Hds & Hc).
  assert (Hall : Forall (fun c => is_digit c = true) (c :: ds)).
  { rewrite <- Hds. unfold digits_of_Z. rewrite to_uint_chars.
    apply uint_chars_digits. }
  assert (Hcd : is_digit c = true) by (inversion Hall; assumption).
  pose proof (Z_of_digits_of_Z m) as Hval. rewrite Hds in Hval. rewrite Hds.
  pose proof (int_digits_chars c ds rest Hall Hc Hrest) as Hint.
  unfold parse_number.
  destruct (Z.ltb_spec m 0) as [Hneg | Hpos].
  - change (string_of_list_ascii (["-"%char] ++ c :: ds) ++ rest)%string
      with (String "-" (string_of_list_ascii (c :: ds) ++ rest)).
    cbn [opt_char]. change (Ascii.eqb "-" "-") with true. cbn iota.
    rewrite Hint, (frac_digits_ends _ Hrest), (exponent_ends _ Hrest).
    rewrite app_nil_r, Hval. cbn [List.length]. do 3 f_equal. lia.
  - cbn [app]. 
    assert (Hminus : opt_char "-" (string_of_list_ascii (c :: ds) ++ rest)
                     = (false, (string_of_list_ascii (c :: ds) ++ rest)%string)).
    { cbn [string_of_list_ascii append opt_char].
      rewrite (digit_not_minus _ Hcd). reflexivity. }
    rewrite Hminus.
    rewrite Hint, (frac_digits_ends _ Hrest), (exponent_ends _ Hrest).
    rewrite app_nil_r, Hval. cbn [List.length]. do 3 f_equal. lia.
Qed.

(** What a number starts with. *)
Lemma number_head (c : ascii) :
  is_digit c = true \/ c = "-"%char ->
  is_ws c = false
  /\ Ascii.eqb c "{" = false /\ Ascii.eqb c "[" = false
  /\ Ascii.eqb c dquote = false /\ Ascii.eqb c "t" = false
  /\ Ascii.eqb c "f" = false /\ Ascii.eqb c "n" = false
  /\ Ascii.eqb "]" c = false.
Proof.
  intros [H | ->]; [ | repeat split].
  destruct c as [[] [] [] [] [] [] [] []]; cbn in H; try discriminate;
    repeat split.
Qed.

Lemma integer_text_head (m : Z) :
  is_json_integer (Finite m 0) = true ->
  exists c t, Number_toString (Finite m 0) = String c t
              /\ (is_digit c = true \/ c = "-"%char).
Proof.
  intros Hint. cbn [is_json_integer] in Hint.
  apply andb_prop in Hint. destruct Hint as [_ Hlen]. apply Nat.leb_le in Hlen.
  destruct (Z.eq_dec m 0) as [-> | Hm].
  { exists "0"%char, "". split; [reflexivity | left; reflexivity]. }
  rewrite (Number_toString_integer m Hm Hlen).
  destruct (Z.ltb m 0).
  - eexists; eexists; split; [reflexivity | right; reflexivity].
  - destruct (digits_of_Z_head m Hm) as (c & ds & Hds & Hc).
    pose proof (uint_chars_digits (N.to_uint (Z.to_N (Z.abs m)))) as Hall.
    assert (Hall' : Forall (fun c => is_digit c = true) (digits_of_Z m)).
    { unfold digits_of_Z. rewrite to_uint_chars. exact Hall. }
    rewrite Hds in *. inversion Hall'; subst.
    eexists; eexists; split; [reflexivity | left; assumption].
Qed.

(** *** String literals *)

Lemma parse_quote_char (c : ascii) (rest : string) :
  parse_string_items (quote_char c ++ rest)
  = cons_item (item_of_char c) (parse_string_items rest).
Proof.
  destruct c as [[] [] [] [] [] [] [] []]; reflexivity.
Qed.

Lemma parse_quote_body (s rest : string) :
  parse_string_items (quote_body s ++ String dquote rest)
  = Some (quoted_items s, rest).
Proof.
  induction s as [ | c s IH]; [reflexivity | ].
  cbn [quote_body quoted_items]. rewrite append_assoc, parse_quote_char, IH.
  reflexivity.
Qed.

Lemma decode_unit (u : Z) (items : list item) :
  is_high_surrogate u = false ->
  decode_items (Unit u :: items) = (utf8 u ++ decode_items items)%string.
Proof.
  intros Hu. destruct items as [ | [c | lo] items]; cbn [decode_items];
    try reflexivity.
  rewrite Hu. reflexivity.
Qed.

Lemma decode_item_of_char (c : ascii) (items : list item) :
  decode_items (item_of_char c :: items) = String c (decode_items items).
Proof.
  destruct c as [[] [] [] [] [] [] [] []];
    first [ reflexivity
          | cbv -[decode_items]; rewrite decode_unit by reflexivity; reflexivity ].
Qed.

Lemma decode_quoted_items (s : string) : decode_items (quoted_items s) = s.
Proof.
  induction s as [ | c s IH]; [reflexivity | ].
  cbn [quoted_items]. rewrite decode_item_of_char, IH. reflexivity.
Qed.

(** A string literal reads back as the string it was written from. *)
Lemma parse_quoted (s rest : string) :
  parse_string_body (quote_body s ++ String dquote rest) = Some (s, rest).
Proof.
  unfold parse_string_body. rewrite parse_quote_body, decode_quoted_items.
  reflexivity.
Qed.

(** *** Values *)

Lemma value_ind_nested (P : value -> Prop) :
  P VUndefined -> P VNull -> (forall b, P (VBool b)) -> (forall n, P (VNum n)) ->
  (forall s, P (VStr s)) ->
  (forall xs, Forall P xs -> P (VArr xs)) ->
  (forall fields, Forall (fun kv => P (snd kv)) fields -> P (VObj fields)) ->
  (forall name message, P (VError name message)) ->
  forall v, P v.
Proof.
  intros Hu Hn Hb Hnum Hs Ha Ho He.
  fix IH 1. intros [ | | b | n | s | xs | fields | name message].
  - exact Hu.
  - exact Hn.
  - apply Hb.
  - apply Hnum.
  - apply Hs.
  - apply Ha. induction xs as [ | x xs IHxs]; constructor; [apply IH | exact IHxs].
  - apply Ho. induction fields as [ | [k x] fields IHf]; constructor;
      [apply IH | exact IHf].
  - apply He.
Qed.

Lemma append_nil_r (s : string) : (s ++ "")%string = s.
Proof. induction s as [ | c s IH]; simpl; [reflexivity | now rewrite IH]. Qed.

(** A serialization starts with a character that is neither white space
    nor a closing bracket. *)
Lemma is_json_integer_inv (n : number) :
  is_json_integer n = true -> exists m, n = Finite m 0.
Proof.
  destruct n as [m e | | | ]; cbn; intros H; try discriminate.
  apply andb_prop in H. destruct H as [He _]. apply Z.eqb_eq in He. subst e.
  exists m. reflexivity.
Qed.

Lemma json_data_head (v : value) :
  is_json_data v = true ->
  exists c t, text_of v = String c t
              /\ is_ws c = false /\ Ascii.eqb "]" c = false.
Proof.
  destruct v as [ | | [] | n | s | xs | fields | name message];
    intros H; try discriminate;
    try (eexists; eexists; (split; [reflexivity | split; reflexivity])).
  cbn [is_json_data] in H. destruct (is_json_integer_inv n H) as [m ->].
  destruct (integer_text_head m H) as (c & t & Htext & Hc).
  exists c, t. unfold text_of. cbn [JSON_stringify number_finite].
  split; [exact Htext | ]. split; apply (number_head c Hc).
Qed.

Lemma text_of_arr (xs : list value) :
  text_of (VArr xs) = ("[" ++ join "," (map text_of xs) ++ "]")%string.
Proof. reflexivity. Qed.

Lemma json_data_serializes (v : value) :
  is_json_data v = true -> JSON_stringify v = Some (text_of v).
Proof. destruct v; intros H; try discriminate; reflexivity. Qed.

Lemma text_of_obj (fields : list (string * value)) :
  forallb (fun kv => is_json_data (snd kv)) fields = true ->
  text_of (VObj fields) = ("{" ++ join "," (map member_text fields) ++ "}")%string.
Proof.
  intros H. unfold text_of. cbn [JSON_stringify]. do 3 f_equal.
  induction fields as [ | [k v] fields IH]; [reflexivity | ].
  cbn [forallb snd] in H. apply andb_prop in H. destruct H as [Hv Hf].
  cbn [flat_map map snd fst]. rewrite (json_data_serializes _ Hv), (IH Hf).
  reflexivity.
Qed.

Lemma parse_elements_join (xs : list value) :
  xs <> [] ->
  Forall (fun x => is_json_data x = true -> reads_back x) xs ->
  forallb is_json_data xs = true ->
  forall (fuel : nat) (acc : list value) (rest : string),
    (2 * (String.length (join "," (map text_of xs)) + 1) + 2 <= fuel)%nat ->
    parse_elements fuel (join "," (map text_of xs) ++ String "]" rest) acc
    = POk (VArr (rev acc ++ xs)) rest.
Proof.
  induction xs as [ | x xs IH]; [congruence | ].
  intros _ Hall Hdata fuel acc rest Hfuel.
  inversion Hall as [ | ? ? Hx Hxs]; subst.
  cbn [forallb] in Hdata. apply andb_prop in Hdata. destruct Hdata as [Hdx Hdxs].
  specialize (Hx Hdx).
  destruct fuel as [ | f]; [lia | ]. cbn [parse_elements].
  destruct xs as [ | y ys].
  - cbn [map join] in *.
    rewrite (Hx f (String "]" rest)) by first [lia | reflexivity].
    cbn. reflexivity.
  - change (join "," (map text_of (x :: y :: ys)))
      with (text_of x ++ "," ++ join "," (map text_of (y :: ys)))%string in *.
    rewrite !length_append in Hfuel. cbn [String.length] in Hfuel.
    rewrite !append_assoc. rewrite (Hx f) by first [lia | reflexivity].
    cbn -[join map text_of parse_elements rev].
    rewrite (IH ltac:(discriminate) Hxs Hdxs f (x :: acc) rest) by lia.
    cbn [rev]. rewrite <- app_assoc. reflexivity.
Qed.

Lemma obj_put_fresh (k : string) (v : value) (fields : list (string * value)) :
  ~ In k (map fst fields) -> obj_put k v fields = fields ++ [(k, v)].
Proof.
  induction fields as [ | [k' v'] fields IH]; intros Hfresh; [reflexivity | ].
  cbn [obj_put]. destruct (String.eqb_spec k k') as [-> | Hne].
  - exfalso. apply Hfresh. left. reflexivity.
  - rewrite IH; [reflexivity | ]. intros Hin. apply Hfresh. right. exact Hin.
Qed.

Lemma fold_obj_put (members acc : list (string * value)) :
  NoDup (map fst (acc ++ members)) ->
  fold_left (fun fields kv => obj_put (fst kv) (snd kv) fields) members acc
  = acc ++ members.
Proof.
  revert acc. induction members as [ | [k v] members IH]; intros acc Hnd.
  - cbn. rewrite app_nil_r. reflexivity.
  - cbn [fold_left fst snd]. rewrite obj_put_fresh.
    + rewrite IH; rewrite <- app_assoc; [reflexivity | exact Hnd].
    + rewrite map_app in Hnd. cbn [map fst] in Hnd.
      apply NoDup_remove_2 in Hnd. intros Hin. apply Hnd.
      apply in_or_app. left. exact Hin.
Qed.

Lemma distinct_NoDup (keys : list string) : distinct keys = true -> NoDup keys.
Proof.
  induction keys as [ | k keys IH]; intros H; constructor;
    cbn [distinct] in H; apply andb_prop in H; destruct H as [Hk Hrest].
  - intros Hin. apply negb_true_iff in Hk.
    assert (existsb (String.eqb k) keys = true) as Hex
        by (apply existsb_exists; exists k; split; [exact Hin | apply String.eqb_refl]).
    congruence.
  - apply IH, Hrest.
Qed.

Lemma obj_of_members_distinct (fields : list (string * value)) :
  distinct (map fst fields) = true -> obj_of_members fields = VObj fields.
Proof.
  intros H. unfold obj_of_members. rewrite fold_obj_put; [reflexivity | ].
  apply distinct_NoDup, H.
Qed.

Lemma member_text_eq (k : string) (v : value) (rest : string) :
  (member_text (k, v) ++ rest)%string
  = String dquote (quote_body k ++ String dquote (String ":" (text_of v ++ rest))).
Proof.
  unfold member_text, QuoteJSONString. cbn [fst snd append].
  rewrite !append_assoc. reflexivity.
Qed.

Lemma length_member_text (k : string) (v : value) :
  String.length (member_text (k, v))
  = (String.length (quote_body k) + String.length (text_of v) + 3)%nat.
Proof.
  unfold member_text, QuoteJSONString. cbn [fst snd append String.length].
  rewrite !length_append. cbn [String.length]. lia.
Qed.

Lemma parse_members_join (fields : list (string * value)) :
  fields <> [] ->
  Forall (fun kv => is_json_data (snd kv) = true -> reads_back (snd kv)) fields ->
  forallb (fun kv => is_json_data (snd kv)) fields = true ->
  forall (fuel : nat) (acc : list (string * value)) (rest : string),
    (2 * (String.length (join "," (map member_text fields)) + 1) + 2 <= fuel)%nat ->
    parse_members fuel (join "," (map member_text fields) ++ String "}" rest) acc
    = POk (obj_of_members (rev acc ++ fields)) rest.
Proof.
  induction fields as [ | [k x] fields IH]; [congruence | ].
  intros _ Hall Hdata fuel acc rest Hfuel.
  inversion Hall as [ | ? ? Hx Hxs]; subst.
  cbn [forallb snd] in Hdata, Hx. apply andb_prop in Hdata.
  destruct Hdata as [Hdx Hdxs]. specialize (Hx Hdx).
  destruct fuel as [ | f]; [lia | ]. cbn [parse_members].
  destruct fields as [ | kv fields].
  - cbn [map join] in *. rewrite length_member_text in Hfuel.
    rewrite member_text_eq.
    cbn -[parse_string_body parse_value text_of quote_body rev].
    rewrite parse_quoted.
    cbn -[parse_value text_of rev].
    rewrite (Hx f (String "}" rest)) by first [lia | reflexivity].
    reflexivity.
  - change (join "," (map member_text ((k, x) :: kv :: fields)))
      with (member_text (k, x) ++ "," ++ join "," (map member_text (kv :: fields)))%string
      in *.
    rewrite !length_append, length_member_text in Hfuel.
    cbn [String.length] in Hfuel.
    rewrite append_assoc, member_text_eq.
    cbn -[parse_string_body parse_value text_of quote_body rev join map
          parse_members member_text].
    rewrite parse_quoted.
    cbn -[parse_value text_of rev join map parse_members member_text].
    rewrite (Hx f) by first [lia | reflexivity].
    cbn -[join map parse_members rev member_text].
    rewrite (IH ltac:(discriminate) Hxs Hdxs f ((k, x) :: acc) rest) by lia.
    cbn [rev]. rewrite <- app_assoc. reflexivity.
Qed.

(** [JSON.parse] undoes [JSON.stringify] on JSON data. *)
Lemma json_data_reads_back (v : value) : is_json_data v = true -> reads_back v.
Proof.
  induction v as [ | | b | n | s | xs IHxs | fields IHf | name message]
    using value_ind_nested; intros Hdata; try discriminate;
    intros fuel rest Hfuel Hrest; (destruct fuel as [ | f]; [lia | ]).
  - reflexivity.
  - destruct b; reflexivity.
  - cbn [is_json_data] in Hdata. destruct (is_json_integer_inv n Hdata) as [m ->].
    destruct (integer_text_head m Hdata) as (c & t & Htext & Hc).
    destruct (number_head c Hc) as (Hws & H1 & H2 & H3 & H4 & H5 & H6 & _).
    pose proof (parse_number_integer m rest Hdata Hrest) as Hnum.
    unfold text_of. cbn [JSON_stringify number_finite].
    rewrite Htext in *. cbn [append parse_value skip_ws] in *.
    rewrite Hws, H1, H2, H3, H4, H5, H6, Hnum. reflexivity.
  - unfold text_of, JSON_stringify, QuoteJSONString.
    cbn -[parse_string_body quote_body].
    rewrite append_assoc. cbn [append]. rewrite parse_quoted. reflexivity.
  - rewrite text_of_arr in *. destruct xs as [ | x xs]; [reflexivity | ].
    cbn [is_json_data] in Hdata.
    rewrite !length_append in Hfuel. cbn [String.length] in Hfuel.
    destruct (json_data_head x) as (c & t & Hhead & Hws & Hclose).
    { cbn [forallb] in Hdata. apply andb_prop in Hdata. exact (proj1 Hdata). }
    assert (Hstart : exists t', (join "," (map text_of (x :: xs)) ++ String "]" rest)%string
                                = String c t').
    { destruct xs; cbn [map join]; rewrite Hhead; eexists; reflexivity. }
    destruct Hstart as [t' Hstart].
    cbn [append]. rewrite !append_assoc. cbn [append parse_value skip_ws].
    change (is_ws "[") with false. cbn iota.
    change (Ascii.eqb "[" "{") with false. change (Ascii.eqb "[" "[") with true.
    cbn iota.
    rewrite Hstart at 1. cbn [skip_ws]. rewrite Hws. unfold opt_char. rewrite Hclose.
    apply parse_elements_join; [discriminate | exact IHxs | exact Hdata | lia].
  - cbn [is_json_data] in Hdata. apply andb_prop in Hdata.
    destruct Hdata as [Hkeys Hdata].
    rewrite (text_of_obj _ Hdata) in *.
    destruct fields as [ | [k x] fields]; [reflexivity | ].
    rewrite !length_append in Hfuel. cbn [String.length] in Hfuel.
    assert (Hstart : exists t', (join "," (map member_text ((k, x) :: fields))
                                   ++ String "}" rest)%string
                                = String dquote t').
    { destruct fields; cbn [map join]; unfold member_text, QuoteJSONString;
        cbn [fst append]; eexists; reflexivity. }
    destruct Hstart as [t' Hstart].
    cbn [append]. rewrite !append_assoc. cbn [append parse_value skip_ws].
    change (is_ws "{") with false. cbn iota.
    change (Ascii.eqb "{" "{") with true. cbn iota.
    rewrite Hstart at 1. cbn [skip_ws].
    change (is_ws dquote) with false. cbn iota. unfold opt_char.
    change (Ascii.eqb "}" dquote) with false. cbn iota.
    rewrite parse_members_join by (first [discriminate | assumption | lia]).
    cbn [rev app]. rewrite obj_of_members_distinct by exact Hkeys. reflexivity.
Qed.

Theorem JSON_parse_stringify (v : value) :
  is_json_data v = true -> JSON_parse_text (text_of v) = Normal v.
Proof.
  intros Hdata. unfold JSON_parse_text.
  pose proof (json_data_reads_back v Hdata (parse_budget (text_of v)) "") as H.
  rewrite append_nil_r in H. rewrite H; [reflexivity | | reflexivity].
  unfold parse_budget. lia.
Qed.

(** ** MD5: the digest has 128 bits *)

Lemma w32_ok (x : Z) : MD5.word_ok (MD5.w32 x).
Proof. unfold MD5.word_ok, MD5.w32. apply Z.mod_pos_bound. reflexivity. Qed.

Lemma process_block_ok (st : MD5.state) (block : list Z) :
  MD5.state_ok (MD5.process_block st block).
Proof.
  unfold MD5.process_block, MD5.state_ok. cbn [MD5.sA MD5.sB MD5.sC MD5.sD].
  repeat split; apply w32_ok.
Qed.

Lemma fold_process_block_ok (bs : list (list Z)) (st : MD5.state) :
  MD5.state_ok st -> MD5.state_ok (fold_left MD5.process_block bs st).
Proof.
  revert st. induction bs as [ | b bs IH]; intros st Hst; simpl.
  - exact Hst.
  - apply IH, process_block_ok.
Qed.

Lemma digest_ok (bs : list Z) : MD5.state_ok (MD5.digest bs).
Proof.
  unfold MD5.digest. apply fold_process_block_ok.
  unfold MD5.state_ok, MD5.word_ok, MD5.init. cbn [MD5.sA MD5.sB MD5.sC MD5.sD].
  change (2 ^ 32) with 4294967296. lia.
Qed.

Lemma encode_bound (st : MD5.state) :
  MD5.state_ok st -> 0 <= MD5.encode st < 2 ^ 128.
Proof.
  unfold MD5.state_ok, MD5.word_ok, MD5.encode.
  change (2 ^ 32) with 4294967296.
  change (2 ^ 128) with 340282366920938463463374607431768211456.
  lia.
Qed.

Lemma encode_inj (st st' : MD5.state) :
  MD5.state_ok st -> MD5.state_ok st' ->
  MD5.encode st = MD5.encode st' -> st = st'.
Proof.
  destruct st as [a b c d], st' as [a' b' c' d'].
  unfold MD5.state_ok, MD5.word_ok, MD5.encode.
  cbn [MD5.sA MD5.sB MD5.sC MD5.sD].
  change (2 ^ 32) with 4294967296.
  intros (Ha & Hb & Hc & Hd) (Ha' & Hb' & Hc' & Hd') He.
  assert (a = a' /\ b = b' /\ c = c' /\ d = d') as (-> & -> & -> & ->) by lia.
  reflexivity.
Qed.

(** A list of numbers has no number twice, or shows one twice. *)
Lemma repeats_or_NoDup (l : list nat) :
  NoDup l \/ exists l1 x l2 l3, l = l1 ++ x :: l2 ++ x :: l3.
Proof.
  induction l as [ | a l IH]; [left; constructor | ].
  destruct IH as [Hnd | (l1 & x & l2 & l3 & ->)].
  - destruct (in_dec Nat.eq_dec a l) as [Hin | Hnin].
    + right. destruct (in_split _ _ Hin) as (l2 & l3 & ->).
      exists [], a, l2, l3. reflexivity.
    + left. constructor; assumption.
  - right. exists (a :: l1), x, l2, l3. reflexivity.
Qed.

(** Of the first [N + 1] values of a function below [N], two are equal. *)
Lemma pigeonhole_pair (N : nat) (f : nat -> nat) :
  (forall i, (f i < N)%nat) ->
  exists i j, (i < j <= N)%nat /\ f i = f j.
Proof.
  intros Hbound.
  set (l := map f (seq 0 (S N))).
  assert (Hlen : List.length l = S N)
    by (subst l; rewrite length_map, length_seq; reflexivity).
  assert (Hnth : forall k, (k < S N)%nat -> nth k l (f O) = f k).
  { intros k Hk. subst l. rewrite map_nth, seq_nth by exact Hk. reflexivity. }
  destruct (repeats_or_NoDup l) as [Hnodup | (l1 & x & l2 & l3 & Heq)].
  - exfalso.
    assert (Hincl : incl l (seq 0 N)).
    { intros y Hy. subst l. apply in_map_iff in Hy. destruct Hy as (i & <- & _).
      apply in_seq. specialize (Hbound i). lia. }
    pose proof (NoDup_incl_length Hnodup Hincl) as Hle.
    rewrite Hlen, length_seq in Hle. lia.
  - rewrite Heq in Hlen. rewrite length_app in Hlen. cbn [List.length] in Hlen.
    rewrite length_app in Hlen. cbn [List.length] in Hlen.
    exists (List.length l1), (List.length l1 + S (List.length l2))%nat.
    split; [lia | ].
    rewrite <- (Hnth (List.length l1)), <- (Hnth (List.length l1 + S (List.length l2))%nat)
      by lia.
    rewrite Heq, nth_middle.
    replace (l1 ++ x :: l2 ++ x :: l3) with ((l1 ++ x :: l2) ++ x :: l3)
      by (rewrite <- app_assoc; reflexivity).
    replace (List.length l1 + S (List.length l2))%nat with (List.length (l1 ++ x :: l2))
      by (rewrite length_app; reflexivity).
    rewrite nth_middle. reflexivity.
Qed.

(** Of the first 2 ^ 128 + 1 members of a family of inputs, two have one
    digest. *)
Lemma md5_family_collides (input : nat -> string) :
  exists i j,
    (i < j <= Z.to_nat (2 ^ 128))%nat /\ MD5.hex (input i) = MD5.hex (input j).
Proof.
  set (st := fun i => MD5.digest (bytes_of_string (input i))).
  assert (Hst : forall i, 0 <= MD5.encode (st i) < 2 ^ 128)
    by (intros i; apply encode_bound, digest_ok).
  destruct (pigeonhole_pair (Z.to_nat (2 ^ 128)) (fun i => Z.to_nat (MD5.encode (st i))))
    as (i & j & Hij & Heq).
  - intros i. specialize (Hst i). apply Z2Nat.inj_lt; lia.
  - exists i, j. split; [exact Hij | ].
    unfold MD5.hex. fold (st i) (st j). f_equal.
    apply encode_inj; try apply digest_ok.
    pose proof (Hst i). pose proof (Hst j).
    apply Z2Nat.inj in Heq; lia.
Qed.

(** ** Configs of 33 hexadecimal digits *)

Lemma hex_value_hex_digit (a : Z) :
  0 <= a < 16 -> hex_value (hex_digit a) = Some a.
Proof.
  intros Ha.
  assert (H : a = 0 \/ a = 1 \/ a = 2 \/ a = 3 \/ a = 4 \/ a = 5 \/ a = 6 \/ a = 7
              \/ a = 8 \/ a = 9 \/ a = 10 \/ a = 11 \/ a = 12 \/ a = 13 \/ a = 14
              \/ a = 15) by lia.
  repeat (destruct H as [-> | H]; [reflexivity | ]). subst a. reflexivity.
Qed.

Lemma length_hex_digits (k : nat) (n : Z) : String.length (Demo.hex_digits k n) = k.
Proof.
  revert n. induction k as [ | k IH]; intros n; cbn [Demo.hex_digits String.length];
    [reflexivity | now rewrite IH].
Qed.

(** Numbers below 16 ^ k have different digits. *)
Lemma hex_digits_inj (k : nat) (n m : Z) :
  0 <= n < 16 ^ Z.of_nat k -> 0 <= m < 16 ^ Z.of_nat k ->
  Demo.hex_digits k n = Demo.hex_digits k m -> n = m.
Proof.
  revert n m. induction k as [ | k IH]; intros n m Hn Hm Heq.
  - change (16 ^ Z.of_nat 0) with 1 in Hn, Hm. lia.
  - rewrite Nat2Z.inj_succ, Z.pow_succ_r in Hn, Hm by lia.
    cbn [Demo.hex_digits] in Heq. inversion Heq as [[Hd Hrest]].
    assert (Hlow : n mod 16 = m mod 16).
    { pose proof (hex_value_hex_digit (n mod 16) (Z.mod_pos_bound n 16 eq_refl)) as H1.
      pose proof (hex_value_hex_digit (m mod 16) (Z.mod_pos_bound m 16 eq_refl)) as H2.
      rewrite Hd in H1. congruence. }
    assert (Hhigh : n / 16 = m / 16).
    { apply IH; [ | | exact Hrest].
      - split; [apply Z.div_pos; lia | apply Z.div_lt_upper_bound; lia].
      - split; [apply Z.div_pos; lia | apply Z.div_lt_upper_bound; lia]. }
    rewrite (Z.div_mod n 16), (Z.div_mod m 16) by lia. congruence.
Qed.

(** ** The Trigger *)

Section TriggerProperties.
Import Cdk Trigger.

Variable calculateFunctionHash : DockerImageFunction -> string.

Local Abbreviation new := (Trigger.new calculateFunctionHash).

(** The memory size of the deployed function, in every case. *)
Lemma memorySize_new (id : string) (props : CdkResourceInitializerProps) :
  DockerImageFunctionProps.memorySize (function (new id props))
  = match fnMemorySize props with
    | None => Int 128
    | Some m => if number_truthy m then m else Int 128
    end.
Proof. reflexivity. Qed.

(** C8, as amended.  When [fnMemorySize] is not specified the deployed
    function's memory size is 128; when it is specified and truthy
    (neither zero nor NaN) the specified value is used. *)
Theorem memorySize_default_or_truthy (id : string) (props : CdkResourceInitializerProps) :
  (fnMemorySize props = None ->
   DockerImageFunctionProps.memorySize (function (new id props)) = Int 128)
  /\ (forall m : number,
         fnMemorySize props = Some m -> number_truthy m = true ->
         DockerImageFunctionProps.memorySize (function (new id props)) = m).
Proof.
  split.
  - intros Hnone. rewrite memorySize_new, Hnone. reflexivity.
  - intros m Hsome Htruthy. rewrite memorySize_new, Hsome, Htruthy. reflexivity.
Qed.

(** C9.  When [fnMemorySize] is explicitly 0 the deployed function's
    memory size is 128, not 0: every falsy [fnMemorySize] is replaced by
    the default. *)
Theorem memorySize_falsy_is_default (id : string) (props : CdkResourceInitializerProps) :
  (fnMemorySize props = Some (Int 0) ->
   DockerImageFunctionProps.memorySize (function (new id props)) = Int 128
   /\ DockerImageFunctionProps.memorySize (function (new id props)) <> Int 0)
  /\ (forall m : number,
         fnMemorySize props = Some m -> number_truthy m = false ->
         DockerImageFunctionProps.memorySize (function (new id props)) = Int 128).
Proof.
  split.
  - intros Hzero. rewrite memorySize_new, Hzero. split; [reflexivity | discriminate].
  - intros m Hsome Hfalsy. rewrite memorySize_new, Hsome, Hfalsy. reflexivity.
Qed.

(** C10.  Whatever [fnTimeout] is, the custom resource's own timeout is
    ten minutes; [fnTimeout] is the timeout of the Handler function. *)
Theorem customResource_timeout_is_ten_minutes
        (id : string) (props : CdkResourceInitializerProps) :
  AwsCustomResourceProps.timeout (customResource (new id props)) = Duration_minutes 10
  /\ DockerImageFunctionProps.timeout (function (new id props)) = fnTimeout props.
Proof. split; reflexivity. Qed.

End TriggerProperties.

(** C8, as stated, fails: a specified memory size of 0 is not used. *)
Lemma memorySize_specified_zero_not_used :
  let props := Demo.with_memory (Some (Int 0)) Demo.props in
  let f := Trigger.function (Trigger.new Demo.functionHash "MyRdsInit" props) in
  Trigger.fnMemorySize props = Some (Int 0)
  /\ Cdk.DockerImageFunctionProps.memorySize f = Int 128
  /\ Cdk.DockerImageFunctionProps.memorySize f <> Int 0.
Proof. repeat split. discriminate. Qed.

Lemma memorySize_default_or_truthy_witness :
  let f props := Trigger.function (Trigger.new Demo.functionHash "MyRdsInit" props) in
  Cdk.DockerImageFunctionProps.memorySize (f Demo.props) = Int 128
  /\ Cdk.DockerImageFunctionProps.memorySize
       (f (Demo.with_memory (Some (Int 256)) Demo.props)) = Int 256.
Proof.
  split.
  - apply (proj1 (memorySize_default_or_truthy Demo.functionHash "MyRdsInit" Demo.props)).
    reflexivity.
  - apply (proj2 (memorySize_default_or_truthy Demo.functionHash "MyRdsInit"
                    (Demo.with_memory (Some (Int 256)) Demo.props)) (Int 256));
      reflexivity.
Defined.

Lemma memorySize_falsy_is_default_witness :
  let f props := Trigger.function (Trigger.new Demo.functionHash "MyRdsInit" props) in
  (Cdk.DockerImageFunctionProps.memorySize
     (f (Demo.with_memory (Some (Int 0)) Demo.props)) = Int 128
   /\ Cdk.DockerImageFunctionProps.memorySize
        (f (Demo.with_memory (Some (Int 0)) Demo.props)) <> Int 0)
  /\ Cdk.DockerImageFunctionProps.memorySize
       (f (Demo.with_memory (Some NaN) Demo.props)) = Int 128.
Proof.
  split.
  - apply (proj1 (memorySize_falsy_is_default Demo.functionHash "MyRdsInit"
                    (Demo.with_memory (Some (Int 0)) Demo.props))).
    reflexivity.
  - apply (proj2 (memorySize_falsy_is_default Demo.functionHash "MyRdsInit"
                    (Demo.with_memory (Some NaN) Demo.props)) NaN);
      reflexivity.
Defined.

(** ** The Handler *)

Section HandlerProperties.
Import Handler HandlerSpec.

Variable w : World.

Lemma GetV_Normal_coercible (v : value) (k : string) (x : value) :
  GetV v k = Normal x -> forall k', RequireObjectCoercible v k' = Normal v.
Proof. destruct v; simpl; intros H k'; try discriminate; reflexivity. Qed.

(** Reading [message] off a truthy value does not throw. *)
Lemma GetV_message_truthy (err : value) :
  ToBoolean err = true -> exists m, GetV err "message" = Normal m.
Proof. destruct err; simpl; intros H; try discriminate; eexists; reflexivity. Qed.

(** The Handler up to the point where it awaits the secret. *)
Lemma handler_try_reads (e ref : value) (tr : list event) :
  reads_reference e ref ->
  handler_try w e tr
  = mbind (getSecretValue w ref)
      (fun p =>
         mbind (await p) (fun creds =>
         mbind (lift (RequireObjectCoercible creds "password")) (fun _ =>
         mbind (lift (GetV creds "password")) (fun password =>
         mbind (lift (GetV creds "username")) (fun username =>
         mbind (lift (GetV creds "host")) (fun host =>
         mbind (createConnection
                  (VObj [("host", host); ("user", username);
                         ("password", password);
                         ("multipleStatements", VBool true)])) (fun connection =>
         mbind (connect w connection) (fun _ =>
         mbind (readFileSync w (path_join (dirname w) "script.sql")) (fun sqlScript =>
         mbind (query w connection sqlScript) (fun q =>
         mbind (await q) (fun res =>
         ret (VObj [("status", VStr "OK"); ("results", res)])))))))))))) tr.
Proof.
  intros (params & config & Hp & Hc & Hr).
  unfold handler_try, mbind at 1 2 3 4, lift.
  rewrite Hp, (GetV_Normal_coercible _ _ _ Hc), Hc, Hr.
  reflexivity.
Qed.

Lemma getSecretValue_unresolvable (ref err : value) (tr : list event) :
  unresolvable w ref err ->
  getSecretValue w ref tr
  = (Done (RejectedWith err), tr ++ [GetSecretValue (secret_request ref)]).
Proof.
  intros (data & Hcb & Herr).
  unfold getSecretValue, mbind, emit. fold (secret_request ref).
  rewrite Hcb, Herr. reflexivity.
Qed.

Lemma getSecretValue_resolves (ref creds : value) (tr : list event) :
  resolves_to w ref creds ->
  getSecretValue w ref tr
  = (Done (Resolved creds), tr ++ [GetSecretValue (secret_request ref)]).
Proof.
  intros (err & data & s & Hcb & Herr & Hs & Hparse).
  unfold getSecretValue, mbind, emit. fold (secret_request ref).
  rewrite Hcb, Herr, Hs. simpl. rewrite Hparse. reflexivity.
Qed.

Lemma getSecretValue_undecodable (ref x : value) (tr : list event) :
  undecodable w ref x ->
  getSecretValue w ref tr
  = (Done (NeverSettles x), tr ++ [GetSecretValue (secret_request ref)]).
Proof.
  intros (err & data & Hcb & Herr & Hthrow).
  unfold getSecretValue, mbind, emit. fold (secret_request ref).
  rewrite Hcb, Herr, Hthrow. reflexivity.
Qed.

(** The three answers of the secret store are all there are. *)
Lemma secret_store_answers (ref : value) :
  (exists err, unresolvable w ref err)
  \/ (exists creds, resolves_to w ref creds)
  \/ (exists x, undecodable w ref x).
Proof.
  destruct (secrets_getSecretValue w (secret_request ref)) as [err data] eqn:Hcb.
  destruct (ToBoolean err) eqn:Herr.
  - left. exists err, data. split; assumption.
  - destruct (bind (GetV data "SecretString") JSON_parse) as [creds | x] eqn:Hb.
    + right. left. exists creds, err, data.
      destruct (GetV data "SecretString") as [s | y] eqn:Hs; simpl in Hb.
      * exists s. repeat split; assumption.
      * discriminate.
    + right. right. exists x, err, data. repeat split; assumption.
Qed.

Lemma is_credential_coercible (creds : value) :
  is_credential creds -> object_coercible creds.
Proof. intros (fields & -> & _). split; discriminate. Qed.

Lemma coercible_reads (creds : value) (k : string) :
  object_coercible creds ->
  RequireObjectCoercible creds k = Normal creds
  /\ exists x, GetV creds k = Normal x.
Proof.
  intros [Hu Hn]. destruct creds; try contradiction; simpl; split;
    try reflexivity; eexists; reflexivity.
Qed.

(** Unfolding of the evaluation combinators. *)
Ltac run :=
  unfold mbind, await, lift, call, emit, ret, createConnection, connect,
    readFileSync, query, handler_catch; simpl.

(** The [try] block once the secret has resolved to a credential. *)
Lemma handler_try_resolved (e ref creds : value) :
  reads_reference e ref -> resolves_to w ref creds -> object_coercible creds ->
  let c := {| options := options_for creds |} in
  let pre := [GetSecretValue (secret_request ref);
              CreateConnection (options_for creds);
              Connect c] in
  handler_try w e []
  = match connection_connect w c with
    | Raises name message => (Thrown (VError name message), pre)
    | Returns _ =>
        let path := path_join (dirname w) "script.sql" in
        match fs_readFileSync w path with
        | Raises name message =>
            (Thrown (VError name message), pre ++ [ReadFileSync path])
        | Returns sql =>
            let tr := pre ++ [ReadFileSync path; Query c sql] in
            match connection_query w c sql with
            | Callback error res =>
                if ToBoolean error then (Thrown error, tr)
                else (Done (ok_response res), tr)
            end
        end
    end.
Proof.
  intros Hread Hres Hco c pre.
  rewrite (handler_try_reads _ _ _ Hread).
  unfold mbind at 1. rewrite (getSecretValue_resolves _ _ _ Hres).
  destruct (coercible_reads creds "password" Hco) as [Hroc [pw Hpw]].
  destruct (coercible_reads creds "username" Hco) as [_ [un Hun]].
  destruct (coercible_reads creds "host" Hco) as [_ [ho Hho]].
  subst c pre. unfold options_for.
  run. rewrite Hroc, Hpw, Hun, Hho. simpl.
  destruct (connection_connect w _) as [[] | n m]; simpl; [ | reflexivity].
  destruct (fs_readFileSync w _) as [sql | n m]; simpl; [ | reflexivity].
  destruct (connection_query w _ sql) as [error res]; simpl.
  destruct (ToBoolean error); reflexivity.
Qed.


(** C4.  An invocation whose secret reference resolves to a credential and
    whose bundled script runs without error returns the OK response with
    the client's result set, which is not null. *)
Theorem handler_ok (e ref creds res : value) :
  reads_reference e ref ->
  resolves_to w ref creds ->
  is_credential creds ->
  script_runs w creds res ->
  is_result_set res ->
  fst (invoke w e) = Fulfilled (ok_response res)
  /\ GetV (ok_response res) "status" = Normal (VStr "OK")
  /\ GetV (ok_response res) "results" = Normal res
  /\ res <> VNull /\ res <> VUndefined.
Proof.
  intros Hread Hres Hcred (sql & error & Hconn & Hfile & Hq & Herr) Hrs.
  repeat split.
  - unfold invoke, handler, try_catch.
    rewrite (handler_try_resolved _ _ _ Hread Hres (is_credential_coercible _ Hcred)).
    cbv zeta. rewrite Hconn, Hfile, Hq, Herr. reflexivity.
  - intros ->. exact Hrs.
  - intros ->. exact Hrs.
Qed.

(** C7.  An invocation whose secret resolves creates exactly one database
    connection and opens it once; its options are the credential's host,
    username and password, with multipleStatements true. *)
Theorem handler_opens_one_connection (e ref creds : value) :
  reads_reference e ref ->
  resolves_to w ref creds ->
  object_coercible creds ->
  exists opts,
    created (snd (invoke w e)) = [opts]
    /\ opened (snd (invoke w e)) = [{| options := opts |}]
    /\ GetV opts "host" = GetV creds "host"
    /\ GetV opts "user" = GetV creds "username"
    /\ GetV opts "password" = GetV creds "password"
    /\ GetV opts "multipleStatements" = Normal (VBool true).
Proof.
  intros Hread Hres Hco.
  exists (options_for creds).
  assert (Htrace : created (snd (invoke w e)) = [options_for creds]
                   /\ opened (snd (invoke w e)) = [{| options := options_for creds |}]).
  { unfold invoke, handler, try_catch.
    rewrite (handler_try_resolved _ _ _ Hread Hres Hco). cbv zeta.
    destruct (connection_connect w _) as [[] | n m]; [ | split; reflexivity].
    destruct (fs_readFileSync w _) as [sql | n m]; [ | split; reflexivity].
    destruct (connection_query w _ sql) as [error res].
    destruct (ToBoolean error) eqn:Herr; [ | split; reflexivity].
    destruct (GetV_message_truthy _ Herr) as [m Hm].
    run. rewrite Hm. split; reflexivity. }
  destruct Htrace as [Hc Ho].
  destruct (coercible_reads creds "host" Hco) as [_ [ho Hho]].
  destruct (coercible_reads creds "username" Hco) as [_ [un Hun]].
  destruct (coercible_reads creds "password" Hco) as [_ [pw Hpw]].
  repeat split; try assumption; unfold options_for.
  - rewrite Hho. reflexivity.
  - rewrite Hun. reflexivity.
  - rewrite Hpw. reflexivity.
Qed.

(** What the [catch] block returns for what the [try] block can throw. *)
Lemma handler_catch_structured (err : value) (tr : list event) :
  (exists m, GetV err "message" = Normal m) ->
  exists response,
    handler_catch err tr = (Done response, tr) /\ structured response.
Proof.
  intros [m Hm]. exists (error_response err m). split.
  - run. rewrite Hm. reflexivity.
  - right. exists err, m. reflexivity.
Qed.

Lemma GetV_throws_error (v : value) (k : string) (x : value) :
  GetV v k = Throw x -> exists m, GetV x "message" = Normal m.
Proof. destruct v; simpl; intros H; inversion H; eexists; reflexivity. Qed.

Lemma coercible_throws_error (v : value) (k : string) (x : value) :
  RequireObjectCoercible v k = Throw x -> exists m, GetV x "message" = Normal m.
Proof. destruct v; simpl; intros H; inversion H; eexists; reflexivity. Qed.

(** Every invocation either returns a structured response, or never
    returns because the secret store's callback threw: no other outcome
    exists, and the Handler's promise is never rejected. *)
Lemma invoke_cases (e : value) :
  (exists response, fst (invoke w e) = Fulfilled response /\ structured response)
  \/ (exists ref x, reads_reference e ref /\ undecodable w ref x
                    /\ fst (invoke w e) = Crashed x).
Proof.
  assert (Hcatch : forall err tr,
             (exists m, GetV err "message" = Normal m) ->
             handler_try w e [] = (Thrown err, tr) ->
             exists response,
               fst (invoke w e) = Fulfilled response /\ structured response).
  { intros err tr Hm Htry.
    destruct (handler_catch_structured err tr Hm) as (response & Hc & Hs).
    exists response. split; [ | exact Hs].
    unfold invoke, handler, try_catch. rewrite Htry, Hc. reflexivity. }
  destruct (GetV e "params") as [params | x] eqn:Hp.
  2:{ left. apply (Hcatch x []); [exact (GetV_throws_error _ _ _ Hp) | ].
      unfold handler_try, mbind, lift. rewrite Hp. reflexivity. }
  destruct (RequireObjectCoercible params "config") as [o | x] eqn:Ho.
  2:{ left. apply (Hcatch x []); [exact (coercible_throws_error _ _ _ Ho) | ].
      unfold handler_try, mbind, lift. rewrite Hp, Ho. reflexivity. }
  destruct (GetV params "config") as [config | x] eqn:Hc.
  2:{ left. apply (Hcatch x []); [exact (GetV_throws_error _ _ _ Hc) | ].
      unfold handler_try, mbind, lift. rewrite Hp, Ho, Hc. reflexivity. }
  destruct (GetV config "credsSecretName") as [ref | x] eqn:Hr.
  2:{ left. apply (Hcatch x []); [exact (GetV_throws_error _ _ _ Hr) | ].
      unfold handler_try, mbind, lift. rewrite Hp, Ho, Hc, Hr. reflexivity. }
  assert (Hread : reads_reference e ref) by (exists params, config; auto).
  destruct (secret_store_answers ref) as [[err Hun] | [[creds Hres] | [x Hund]]].
  - left. apply (Hcatch err [GetSecretValue (secret_request ref)]).
    + destruct Hun as (data & _ & Herr). exact (GetV_message_truthy _ Herr).
    + rewrite (handler_try_reads _ _ _ Hread).
      unfold mbind at 1. rewrite (getSecretValue_unresolvable _ _ _ Hun).
      reflexivity.
  - destruct (RequireObjectCoercible creds "password") as [o' | x] eqn:Hco.
    2:{ left. apply (Hcatch x [GetSecretValue (secret_request ref)]);
          [exact (coercible_throws_error _ _ _ Hco) | ].
        rewrite (handler_try_reads _ _ _ Hread).
        unfold mbind at 1. rewrite (getSecretValue_resolves _ _ _ Hres).
        run. rewrite Hco. reflexivity. }
    assert (Hcoerc : object_coercible creds)
      by (split; intros ->; discriminate).
    pose proof (handler_try_resolved _ _ _ Hread Hres Hcoerc) as Htry.
    cbv zeta in Htry.
    destruct (connection_connect w _) as [[] | n m].
    2:{ left. eapply Hcatch; [ | exact Htry]. eexists; reflexivity. }
    destruct (fs_readFileSync w _) as [sql | n m].
    2:{ left. eapply Hcatch; [ | exact Htry]. eexists; reflexivity. }
    destruct (connection_query w _ sql) as [error res].
    destruct (ToBoolean error) eqn:Herr.
    + left. eapply Hcatch; [ | exact Htry]. exact (GetV_message_truthy _ Herr).
    + left. exists (ok_response res). split.
      * unfold invoke, handler, try_catch. rewrite Htry. reflexivity.
      * left. exists res. reflexivity.
  - right. exists ref, x. repeat split; try assumption.
    unfold invoke, handler, try_catch.
    rewrite (handler_try_reads _ _ _ Hread).
    unfold mbind at 1. rewrite (getSecretValue_undecodable _ _ _ Hund).
    reflexivity.
Qed.

End HandlerProperties.

(** ** The Identity Token and the invocation payload *)

Section TokenProperties.
Import Cdk Trigger.

Variable calculateFunctionHash : DockerImageFunction -> string.

Local Abbreviation new := (Trigger.new calculateFunctionHash).
Local Abbreviation identityToken := (Trigger.identityToken calculateFunctionHash).

(** An object always serializes: the payload is a string. *)
Lemma payload_is_string (c : value) :
  JSON_stringify (VObj [("params", VObj [("config", c)])]) = Some (payload c).
Proof. reflexivity. Qed.

(** The function the Trigger deploys does not depend on the config. *)
Lemma fn_with_config (id : string) (c : value) (props : CdkResourceInitializerProps) :
  fn id (Demo.with_config c props) = fn id props.
Proof. reflexivity. Qed.

(** The token is the constant of the constructor that ends the physical
    resource id. *)
Lemma physicalResourceId_new (id : string) (props : CdkResourceInitializerProps) :
  physicalResourceId (AwsCustomResourceProps.onUpdate (customResource (new id props)))
  = (id ++ "-AwsSdkCall-" ++ identityToken id props)%string.
Proof. reflexivity. Qed.

(** The event a JSON data config is delivered in. *)
Lemma payload_reads_back (c : value) :
  is_json_data c = true ->
  JSON_parse_text (payload c) = Normal (VObj [("params", VObj [("config", c)])]).
Proof.
  intros Hdata.
  apply (JSON_parse_stringify (VObj [("params", VObj [("config", c)])])).
  cbn. rewrite Hdata. reflexivity.
Qed.

(** C3, as amended.  The Identity Token is a function of the function
    hash of the deployed function and of the payload, the MD5 digest of
    the one followed by the other: constructions that agree on both, and
    so those that deploy the same function with the same payload, have
    one token.  Constructions that differ in the function hash or in the
    payload (the function hashes being of one length), and so those with
    different JSON data configs, give the digest different texts. *)
Theorem identityToken_function_of_hash_and_payload
        (id id' : string) (props props' : CdkResourceInitializerProps) :
  let h := calculateFunctionHash (fn id props) in
  let h' := calculateFunctionHash (fn id' props') in
  let p := payload (config props) in
  let p' := payload (config props') in
  identityToken id props = MD5.hex (h ++ p)
  /\ (h = h' -> p = p' -> identityToken id props = identityToken id' props')
  /\ (fn id props = fn id' props' -> p = p' ->
      identityToken id props = identityToken id' props')
  /\ (String.length h = String.length h' ->
      (h, p) <> (h', p') -> (h ++ p)%string <> (h' ++ p')%string)
  /\ (String.length h = String.length h' ->
      is_json_data (config props) = true ->
      is_json_data (config props') = true ->
      config props <> config props' -> (h ++ p)%string <> (h' ++ p')%string).
Proof.
  intros h h' p p'.
  assert (Hinput : String.length h = String.length h' ->
                   (h ++ p)%string = (h' ++ p')%string -> h = h' /\ p = p')
    by apply append_inv_same_length.
  assert (Hsame : h = h' -> p = p' ->
                  identityToken id props = identityToken id' props').
  { intros Hh Hp. unfold Trigger.identityToken. fold h h' p p'.
    rewrite Hh, Hp. reflexivity. }
  split; [reflexivity | split; [exact Hsame | split; [ | split]]].
  - intros Hfn Hp. apply Hsame; [ | exact Hp]. subst h h'. rewrite Hfn. reflexivity.
  - intros Hlen Hne Happ. apply Hne.
    destruct (Hinput Hlen Happ) as [-> ->]. reflexivity.
  - intros Hlen Hdata Hdata' Hne Happ. apply Hne.
    destruct (Hinput Hlen Happ) as [_ Hp].
    pose proof (payload_reads_back _ Hdata) as Hback. fold p in Hback.
    rewrite Hp in Hback. subst p'.
    rewrite (payload_reads_back _ Hdata') in Hback.
    inversion Hback. reflexivity.
Qed.

(** C6.  The call the custom resource makes on update is a Lambda invoke
    of the Handler function whose Payload is the JSON serialization of
    [{ params: { config: props.config } }]; a config that serializes
    stands in it as serialized, and a config that is JSON data is read
    back from it unchanged. *)
Theorem payload_is_serialized_config (id : string) (props : CdkResourceInitializerProps) :
  let call := AwsCustomResourceProps.onUpdate (customResource (new id props)) in
  service call = "Lambda"
  /\ action call = "invoke"
  /\ FunctionName (parameters call)
     = DockerImageFunctionProps.functionName (function (new id props))
  /\ JSON_stringify (VObj [("params", VObj [("config", config props)])])
     = Some (Payload (parameters call))
  /\ (forall t, JSON_stringify (config props) = Some t ->
                Payload (parameters call)
                = (json_text "{'params':{'config':" ++ t ++ "}}")%string)
  /\ (is_json_data (config props) = true ->
      JSON_parse_text (Payload (parameters call))
      = Normal (VObj [("params", VObj [("config", config props)])])).
Proof.
  intros call. repeat split.
  - intros t Ht. subst call. simpl. unfold payload. simpl JSON_stringify.
    rewrite Ht. simpl. rewrite append_assoc. reflexivity.
  - intros Hdata. apply (JSON_parse_stringify (VObj [("params", VObj [("config", config props)])])).
    cbn. rewrite Hdata. reflexivity.
Qed.

End TokenProperties.

(** ** The properties at the demonstration stack *)

(** C3, as stated, fails.  The token is no function of the content of
    the Handler and the payload: the demonstration stack deployed with
    256 MB of memory has the same image and the same payload as deployed
    with the default, and another token, the function hash being that of
    the function and its configuration.  Nor does every change of the
    payload change the token: among the configs that are strings of 33
    hexadecimal digits, two have different payloads and one token. *)
Lemma identityToken_not_function_of_content :
  let token := Trigger.identityToken Demo.functionHash "MyRdsInit" in
  let larger := Demo.with_memory (Some (Int 256)) Demo.props in
  (Trigger.fnCode larger = Trigger.fnCode Demo.props
   /\ Trigger.payload (Trigger.config larger)
      = Trigger.payload (Trigger.config Demo.props)
   /\ token larger <> token Demo.props)
  /\ exists s s',
       String.length s = 33%nat /\ String.length s' = 33%nat
       /\ Trigger.payload (VStr s) <> Trigger.payload (VStr s')
       /\ token (Demo.with_config (VStr s) Demo.props)
          = token (Demo.with_config (VStr s') Demo.props).
Proof.
  intros token larger. split.
  - split; [reflexivity | split; [reflexivity | ]].
    vm_compute. discriminate.
  - set (h := Demo.functionHash (Trigger.fn "MyRdsInit" Demo.props)).
    set (config := fun i : nat => VStr (Demo.hex_digits 33 (Z.of_nat i))).
    destruct (md5_family_collides
                (fun i => (h ++ Trigger.payload (config i))%string))
      as (i & j & Hij & Hhex).
    exists (Demo.hex_digits 33 (Z.of_nat i)), (Demo.hex_digits 33 (Z.of_nat j)).
    rewrite !length_hex_digits.
    split; [reflexivity | split; [reflexivity | split]].
    + intros Hp.
      pose proof (payload_reads_back (config i) eq_refl) as Hback.
      pose proof (payload_reads_back (config j) eq_refl) as Hback'.
      unfold config in Hback, Hback'. rewrite Hp, Hback' in Hback.
      assert (Hdigits : Demo.hex_digits 33 (Z.of_nat i) = Demo.hex_digits 33 (Z.of_nat j))
        by congruence.
      assert (Hbound : forall k : nat,
                 (k <= Z.to_nat (2 ^ 128))%nat -> 0 <= Z.of_nat k < 16 ^ Z.of_nat 33).
      { intros k Hk. apply Nat2Z.inj_le in Hk.
        rewrite Z2Nat.id in Hk by (apply Z.pow_nonneg; lia).
        change (2 ^ 128) with 340282366920938463463374607431768211456 in Hk.
        change (16 ^ Z.of_nat 33) with 5444517870735015415413993718908291383296.
        lia. }
      apply hex_digits_inj in Hdigits; [lia | apply Hbound; lia | apply Hbound; lia].
    + exact Hhex.
Qed.

Lemma identityToken_function_of_hash_and_payload_witness :
  let token := Trigger.identityToken Demo.functionHash "MyRdsInit" in
  let input props :=
    (Demo.functionHash (Trigger.fn "MyRdsInit" props)
       ++ Trigger.payload (Trigger.config props))%string in
  let renamed :=
    Demo.with_config (VObj [("credsSecretName", VStr "/other/rds/creds/mysql-01")])
                     Demo.props in
  token Demo.props = token (Demo.with_memory (Some (Int 128)) Demo.props)
  /\ input Demo.props <> input renamed.
Proof.
  intros token input renamed.
  destruct (identityToken_function_of_hash_and_payload
              Demo.functionHash "MyRdsInit" "MyRdsInit"
              Demo.props (Demo.with_memory (Some (Int 128)) Demo.props))
    as (_ & _ & Hsame & _).
  destruct (identityToken_function_of_hash_and_payload
              Demo.functionHash "MyRdsInit" "MyRdsInit" Demo.props renamed)
    as (_ & _ & _ & _ & Hdiff).
  split.
  - apply Hsame; reflexivity.
  - apply Hdiff.
    + reflexivity.
    + reflexivity.
    + reflexivity.
    + discriminate.
Defined.

Lemma payload_is_serialized_config_witness :
  let call :=
    Cdk.AwsCustomResourceProps.onUpdate (Trigger.customResource
                    (Trigger.new Demo.functionHash "MyRdsInit" Demo.props)) in
  Cdk.Payload (Cdk.parameters call)
  = json_text "{'params':{'config':{'credsSecretName':'/rdsinitexample/rds/creds/mysql-01'}}}"
  /\ JSON_parse_text (Cdk.Payload (Cdk.parameters call))
     = Normal (VObj [("params", VObj [("config", Trigger.config Demo.props)])]).
Proof.
  destruct (payload_is_serialized_config Demo.functionHash "MyRdsInit" Demo.props)
    as (_ & _ & _ & _ & Htext & Hback).
  split.
  - apply (Htext (json_text "{'credsSecretName':'/rdsinitexample/rds/creds/mysql-01'}")).
    vm_compute. reflexivity.
  - apply Hback. vm_compute. reflexivity.
Defined.

(** A config with a port number and a list is read back unchanged. *)
Example config_with_port_reads_back :
  let c := VObj [("credsSecretName", VStr "x");
                 ("port", VNum (Int 3306));
                 ("schemas", VArr [VStr "main"; VNull; VBool true])] in
  JSON_parse_text (Trigger.payload c)
  = Normal (VObj [("params", VObj [("config", c)])]).
Proof.
  intros c.
  apply (JSON_parse_stringify (VObj [("params", VObj [("config", c)])])).
  vm_compute. reflexivity.
Qed.

(** The Handler reads out of the delivered event the reference the
    Trigger was configured with. *)
Lemma trigger_event_reads_reference
      (props : Trigger.CdkResourceInitializerProps) (fields : list (string * value)) :
  Trigger.config props = VObj fields ->
  is_json_data (VObj fields) = true ->
  HandlerSpec.reads_reference
    (Demo.event_for props)
    (match lookup "credsSecretName" fields with Some ref => ref | None => VUndefined end).
Proof.
  intros Hconfig Hdata. unfold Demo.event_for.
  assert (Hback : JSON_parse_text (Trigger.payload (Trigger.config props))
                  = Normal (VObj [("params", VObj [("config", Trigger.config props)])])).
  { apply (JSON_parse_stringify (VObj [("params", VObj [("config", Trigger.config props)])])).
    rewrite Hconfig. cbn [is_json_data] in Hdata.
    cbn [is_json_data map fst snd forallb distinct existsb negb andb].
    rewrite Hdata. reflexivity. }
  rewrite Hback, Hconfig.
  exists (VObj [("config", VObj fields)]), (VObj fields).
  repeat split.
Qed.

Lemma demo_reads_reference :
  HandlerSpec.reads_reference (Demo.event_for Demo.props) (VStr Demo.credsSecretName).
Proof.
  exists (VObj [("config", Trigger.config Demo.props)]), (Trigger.config Demo.props).
  repeat split; vm_compute; reflexivity.
Qed.



Lemma demo_resolves :
  HandlerSpec.resolves_to (Demo.world Demo.good_store) (VStr Demo.credsSecretName)
    (VObj [("username", VStr "admin"); ("password", VStr "p"); ("host", VStr "h")]).
Proof.
  exists VNull,
    (VObj [("Name", VStr Demo.credsSecretName); ("SecretString", VStr Demo.good_secret)]),
    (VStr Demo.good_secret).
  repeat split; vm_compute; reflexivity.
Qed.

Lemma handler_ok_witness :
  fst (Handler.invoke (Demo.world Demo.good_store) (Demo.event_for Demo.props))
  = Handler.Fulfilled (Handler.ok_response Demo.rows)
  /\ GetV (Handler.ok_response Demo.rows) "status" = Normal (VStr "OK")
  /\ GetV (Handler.ok_response Demo.rows) "results" = Normal Demo.rows
  /\ Demo.rows <> VNull /\ Demo.rows <> VUndefined.
Proof.
  apply (handler_ok (Demo.world Demo.good_store) (Demo.event_for Demo.props)
           (VStr Demo.credsSecretName)
           (VObj [("username", VStr "admin"); ("password", VStr "p"); ("host", VStr "h")])).
  - exact demo_reads_reference.
  - exact demo_resolves.
  - eexists. split; [reflexivity | ]. repeat split; discriminate.
  - exists Demo.script, VNull. repeat split; reflexivity.
  - exact I.
Defined.

Lemma handler_opens_one_connection_witness :
  exists opts,
    HandlerSpec.created
      (snd (Handler.invoke (Demo.world Demo.good_store) (Demo.event_for Demo.props)))
    = [opts]
    /\ HandlerSpec.opened
         (snd (Handler.invoke (Demo.world Demo.good_store) (Demo.event_for Demo.props)))
       = [{| Handler.options := opts |}]
    /\ GetV opts "host" = Normal (VStr "h")
    /\ GetV opts "user" = Normal (VStr "admin")
    /\ GetV opts "password" = Normal (VStr "p")
    /\ GetV opts "multipleStatements" = Normal (VBool true).
Proof.
  apply (handler_opens_one_connection (Demo.world Demo.good_store)
           (Demo.event_for Demo.props) (VStr Demo.credsSecretName)
           (VObj [("username", VStr "admin"); ("password", VStr "p"); ("host", VStr "h")])).
  - exact demo_reads_reference.
  - exact demo_resolves.
  - split; discriminate.
Defined.

(** The Handler when the secret string does not decode: nothing is
    returned, the exception is raised outside the Handler's promise. *)
Lemma handler_undecodable_secret (w : Handler.World) (e ref x : value) :
  HandlerSpec.reads_reference e ref ->
  HandlerSpec.undecodable w ref x ->
  Handler.invoke w e
  = (Handler.Crashed x, [Handler.GetSecretValue (HandlerSpec.secret_request ref)]).
Proof.
  intros Hread Hund.
  unfold Handler.invoke, Handler.handler, Handler.try_catch.
  rewrite (handler_try_reads _ _ _ _ Hread).
  unfold Handler.mbind at 1. rewrite (getSecretValue_undecodable _ _ _ _ Hund).
  reflexivity.
Qed.

(** C2, at a secret whose string is not JSON: the failure is not reported
    through the ERROR response; the SyntaxError of [JSON.parse] leaves
    the SDK's callback and the invocation returns nothing. *)
Theorem handler_malformed_secret_not_reported :
  Handler.invoke (Demo.world Demo.malformed_store) (Demo.event_for Demo.props)
  = (Handler.Crashed (SyntaxError "Unexpected token in JSON"),
     [Handler.GetSecretValue (HandlerSpec.secret_request (VStr Demo.credsSecretName))]).
Proof. vm_compute. reflexivity. Qed.

(** C1, at a secret whose JSON text is cut short: the invocation does not
    return a structured response. *)
Theorem handler_failure_not_caught :
  let outcome :=
    fst (Handler.invoke (Demo.world Demo.truncated_store) (Demo.event_for Demo.props)) in
  outcome = Handler.Crashed (SyntaxError "Unexpected token in JSON")
  /\ ~ exists response, outcome = Handler.Fulfilled response.
Proof.
  split.
  - vm_compute. reflexivity.
  - intros [response H]. vm_compute in H. discriminate.
Qed.

(* ====================================================================== *)
(** * Further properties *)

(** ** [JSON.parse] returns no undefined *)

Ltac parse_case :=
  match goal with
  | H : POk _ _ = POk _ _ |- _ => inversion H; subst; clear H; discriminate
  | H : PError = POk _ _ |- _ => discriminate H
  | H : PFuel = POk _ _ |- _ => discriminate H
  | H : (let '(_, _) := ?x in _) = POk _ _ |- _ => destruct x as [[] ?]
  | H : (if ?b then _ else _) = POk _ _ |- _ => destruct b
  | H : match ?x with _ => _ end = POk _ _ |- _ => destruct x
  end.

Lemma parse_not_undefined (fuel : nat) :
  (forall s v r, parse_value fuel s = POk v r -> v <> VUndefined)
  /\ (forall s acc v r, parse_elements fuel s acc = POk v r -> v <> VUndefined)
  /\ (forall s acc v r, parse_members fuel s acc = POk v r -> v <> VUndefined).
Proof.
  induction fuel as [ | f (IHv & IHe & IHm)].
  - repeat split; intros; discriminate.
  - split; [ | split].
    + intros s v r H. cbn [parse_value] in H.
      repeat first [ exact (IHe _ _ _ _ H) | exact (IHm _ _ _ _ H) | parse_case ].
    + intros s acc v r H. cbn [parse_elements] in H.
      repeat first [ exact (IHe _ _ _ _ H) | parse_case ].
    + intros s acc v r H. cbn [parse_members] in H.
      repeat first [ exact (IHm _ _ _ _ H) | parse_case ].
Qed.

Lemma JSON_parse_not_undefined (x v : value) :
  JSON_parse x = Normal v -> v <> VUndefined.
Proof.
  unfold JSON_parse, JSON_parse_text. intros H.
  destruct (parse_value _ _) as [v' rest | | ] eqn:Hp; try discriminate.
  destruct (skip_ws rest); try discriminate.
  inversion H; subst. exact (proj1 (parse_not_undefined _) _ _ _ Hp).
Qed.

(** ** The Handler, outcome by outcome *)

Section HandlerCases.
Import Handler HandlerSpec Calls.

Variable w : World.

(** An event holds at most one reference. *)
Lemma reads_reference_functional (e ref ref' : value) :
  reads_reference e ref -> reads_reference e ref' -> ref = ref'.
Proof.
  intros (p & c & Hp & Hc & Hr) (p' & c' & Hp' & Hc' & Hr'). congruence.
Qed.

Lemma GetV_throws_TypeError (v : value) (k : string) (x : value) :
  GetV v k = Throw x -> exists msg, x = TypeError msg.
Proof. destruct v; simpl; intros H; inversion H; eexists; reflexivity. Qed.

Lemma coercible_throws_TypeError (v : value) (k : string) (x : value) :
  RequireObjectCoercible v k = Throw x -> exists msg, x = TypeError msg.
Proof. destruct v; simpl; intros H; inversion H; eexists; reflexivity. Qed.

Lemma object_coercible_dec (v : value) :
  object_coercible v \/ ~ object_coercible v.
Proof.
  destruct v; try (left; split; discriminate);
    right; intros [Hu Hn]; congruence.
Qed.

Lemma not_coercible_throws (creds : value) (k : string) :
  ~ object_coercible creds ->
  exists msg, RequireObjectCoercible creds k = Throw (TypeError msg).
Proof.
  intros H.
  destruct creds; try (exfalso; apply H; split; discriminate);
    eexists; reflexivity.
Qed.

(** What the [try] block throws, the [catch] block returns. *)
Lemma invoke_thrown (e err m : value) (tr : list event) :
  handler_try w e [] = (Thrown err, tr) ->
  GetV err "message" = Normal m ->
  invoke w e = (Fulfilled (error_response err m), tr).
Proof.
  intros Htry Hm. unfold invoke, handler, try_catch. rewrite Htry.
  unfold handler_catch, mbind, lift, ret. rewrite Hm. reflexivity.
Qed.

Lemma invoke_thrown_TypeError (e : value) (msg : string) (tr : list event) :
  handler_try w e [] = (Thrown (TypeError msg), tr) ->
  invoke w e = (Fulfilled (error_response (TypeError msg) (VStr msg)), tr).
Proof. intros Htry. apply (invoke_thrown _ _ _ _ Htry). reflexivity. Qed.

(** The event from which no reference can be read. *)
Lemma invoke_malformed_event (e : value) :
  (forall ref, ~ reads_reference e ref) ->
  exists msg,
    invoke w e = (Fulfilled (error_response (TypeError msg) (VStr msg)), []).
Proof.
  intros Hnone.
  destruct (GetV e "params") as [params | x] eqn:Hp.
  2:{ destruct (GetV_throws_TypeError _ _ _ Hp) as [msg ->]. exists msg.
      apply invoke_thrown_TypeError.
      unfold handler_try, mbind, lift. rewrite Hp. reflexivity. }
  destruct (RequireObjectCoercible params "config") as [o | x] eqn:Ho.
  2:{ destruct (coercible_throws_TypeError _ _ _ Ho) as [msg ->]. exists msg.
      apply invoke_thrown_TypeError.
      unfold handler_try, mbind, lift. rewrite Hp, Ho. reflexivity. }
  destruct (GetV params "config") as [config | x] eqn:Hc.
  2:{ destruct (GetV_throws_TypeError _ _ _ Hc) as [msg ->]. exists msg.
      apply invoke_thrown_TypeError.
      unfold handler_try, mbind, lift. rewrite Hp, Ho, Hc. reflexivity. }
  destruct (GetV config "credsSecretName") as [ref | x] eqn:Hr.
  2:{ destruct (GetV_throws_TypeError _ _ _ Hr) as [msg ->]. exists msg.
      apply invoke_thrown_TypeError.
      unfold handler_try, mbind, lift. rewrite Hp, Ho, Hc, Hr. reflexivity. }
  exfalso. apply (Hnone ref). exists params, config. auto.
Qed.

Lemma reads_reference_dec (e : value) :
  (exists ref, reads_reference e ref) \/ (forall ref, ~ reads_reference e ref).
Proof.
  destruct (GetV e "params") as [params | x] eqn:Hp.
  2:{ right. intros ref (p & c & Hp' & _). congruence. }
  destruct (GetV params "config") as [config | x] eqn:Hc.
  2:{ right. intros ref (p & c & Hp' & Hc' & _). congruence. }
  destruct (GetV config "credsSecretName") as [ref | x] eqn:Hr.
  2:{ right. intros ref (p & c & Hp' & Hc' & Hr'). congruence. }
  left. exists ref, params, config. auto.
Qed.

Lemma invoke_unresolvable (e ref err m : value) :
  reads_reference e ref -> unresolvable w ref err ->
  GetV err "message" = Normal m ->
  invoke w e = (Fulfilled (error_response err m),
                [GetSecretValue (secret_request ref)]).
Proof.
  intros Hread Hun Hm. apply invoke_thrown; [ | exact Hm].
  rewrite (handler_try_reads _ _ _ _ Hread).
  unfold mbind at 1. rewrite (getSecretValue_unresolvable _ _ _ _ Hun).
  reflexivity.
Qed.

Lemma invoke_undecodable (e ref x : value) :
  reads_reference e ref -> undecodable w ref x ->
  invoke w e = (Crashed x, [GetSecretValue (secret_request ref)]).
Proof.
  intros Hread Hund.
  unfold invoke, handler, try_catch.
  rewrite (handler_try_reads _ _ _ _ Hread).
  unfold mbind at 1. rewrite (getSecretValue_undecodable _ _ _ _ Hund).
  reflexivity.
Qed.

Lemma invoke_not_object (e ref creds : value) (msg : string) :
  reads_reference e ref -> resolves_to w ref creds ->
  RequireObjectCoercible creds "password" = Throw (TypeError msg) ->
  invoke w e = (Fulfilled (error_response (TypeError msg) (VStr msg)),
                [GetSecretValue (secret_request ref)]).
Proof.
  intros Hread Hres Hthrow.
  apply invoke_thrown_TypeError.
  rewrite (handler_try_reads _ _ _ _ Hread).
  unfold mbind at 1. rewrite (getSecretValue_resolves _ _ _ _ Hres).
  unfold mbind, await, lift. rewrite Hthrow. reflexivity.
Qed.

(** A secret that resolves does not resolve to undefined. *)
Lemma resolves_to_defined (ref creds : value) :
  resolves_to w ref creds -> creds <> VUndefined.
Proof.
  intros (err & data & s & _ & _ & _ & Hparse).
  exact (JSON_parse_not_undefined _ _ Hparse).
Qed.

(** The invocation once the secret has resolved to a credential. *)
Lemma invoke_resolved (e ref creds : value) :
  reads_reference e ref -> resolves_to w ref creds -> object_coercible creds ->
  let c := {| options := options_for creds |} in
  invoke w e
  = match connection_connect w c with
    | Raises name message =>
        (Fulfilled (error_response (VError name message) (VStr message)),
         opening_calls ref creds)
    | Returns _ =>
        match fs_readFileSync w (script_path w) with
        | Raises name message =>
            (Fulfilled (error_response (VError name message) (VStr message)),
             opening_calls ref creds ++ [ReadFileSync (script_path w)])
        | Returns sql =>
            match connection_query w c sql with
            | Callback error res =>
                if ToBoolean error
                then (Fulfilled
                        (error_response error
                           (match GetV error "message" with
                            | Normal m => m
                            | Throw _ => VUndefined
                            end)),
                      all_calls w ref creds sql)
                else (Fulfilled (ok_response res), all_calls w ref creds sql)
            end
        end
    end.
Proof.
  intros Hread Hres Hco c.
  pose proof (handler_try_resolved _ _ _ _ Hread Hres Hco) as Htry.
  cbv zeta in Htry. fold c in Htry. fold (script_path w) in Htry.
  unfold all_calls, opening_calls. fold c.
  destruct (connection_connect w c) as [[] | n m].
  2:{ apply (invoke_thrown _ _ _ _ Htry). reflexivity. }
  destruct (fs_readFileSync w (script_path w)) as [sql | n m].
  2:{ apply (invoke_thrown _ _ _ _ Htry). reflexivity. }
  destruct (connection_query w c sql) as [error res].
  destruct (ToBoolean error) eqn:Herr.
  - destruct (GetV_message_truthy _ Herr) as [m Hm]. rewrite Hm.
    apply (invoke_thrown _ _ _ _ Htry Hm).
  - unfold invoke, handler, try_catch. rewrite Htry. reflexivity.
Qed.

(** Every invocation is one of the invocations of [invocation]. *)
Lemma invoke_invocation (e : value) : invocation w e (invoke w e).
Proof.
  destruct (reads_reference_dec e) as [[ref Hread] | Hnone].
  2:{ destruct (invoke_malformed_event e Hnone) as [msg ->].
      apply inv_malformed_event. exact Hnone. }
  destruct (secret_store_answers w ref) as [[err Hun] | [[creds Hres] | [x Hund]]].
  - assert (Hm : exists m, GetV err "message" = Normal m).
    { destruct Hun as (data & _ & Herr). exact (GetV_message_truthy _ Herr). }
    destruct Hm as [m Hm].
    rewrite (invoke_unresolvable _ _ _ _ Hread Hun Hm).
    apply inv_unresolvable; assumption.
  - destruct (object_coercible_dec creds) as [Hco | Hno].
    2:{ destruct (not_coercible_throws creds "password" Hno) as [msg Hthrow].
        rewrite (invoke_not_object _ _ _ _ Hread Hres Hthrow).
        apply (inv_not_object w e ref creds); assumption. }
    rewrite (invoke_resolved _ _ _ Hread Hres Hco). cbv zeta.
    destruct (connection_connect w _) as [[] | n m] eqn:Hconn;
      [ | apply (inv_connect_fails w e ref creds); assumption].
    destruct (fs_readFileSync w (script_path w)) as [sql | n m] eqn:Hfile;
      [ | apply (inv_read_fails w e ref creds); assumption].
    destruct (connection_query w _ sql) as [error res] eqn:Hq.
    destruct (ToBoolean error) eqn:Herr;
      [ destruct (GetV_message_truthy _ Herr) as [m Hm]; rewrite Hm;
        apply (inv_query_fails w e ref creds sql error res m); assumption
      | apply (inv_ok w e ref creds sql error res); assumption ].
  - rewrite (invoke_undecodable _ _ _ Hread Hund).
    apply inv_undecodable; assumption.
Qed.



(** X1.  The promise the Handler returns is never rejected: the [catch]
    block itself does not throw.  An invocation that does not return a
    response is one whose secret the store delivered but whose string
    did not decode; it has made the secret request and no other call. *)
Theorem handler_never_rejects (e : value) :
  (forall reason, fst (invoke w e) <> Rejected reason)
  /\ (forall x, fst (invoke w e) = Crashed x ->
        exists ref,
          reads_reference e ref /\ undecodable w ref x
          /\ snd (invoke w e) = [GetSecretValue (secret_request ref)]).
Proof.
  destruct (invoke_invocation e); simpl; split;
    try (intros reason Hr; discriminate);
    try (intros y Hy; discriminate).
  intros y Hy. inversion Hy; subst. exists ref. auto.
Qed.

(** X2.  An event from which no secret reference can be read (no params,
    no config, or a config that is undefined or null) is answered with
    the ERROR response of a TypeError, and no library is called: no
    secret is requested and no connection is created. *)
Theorem handler_event_without_reference (e : value) :
  (forall ref, ~ reads_reference e ref) ->
  exists msg,
    invoke w e = (Fulfilled (error_response (TypeError msg) (VStr msg)), [])
    /\ GetV (error_response (TypeError msg) (VStr msg)) "status"
       = Normal (VStr "ERROR").
Proof.
  intros Hnone. destruct (invoke_malformed_event e Hnone) as [msg Hmsg].
  exists msg. split; [exact Hmsg | reflexivity].
Qed.

(** X3.  A secret that decodes to a value without properties is the JSON
    text null; the invocation returns the ERROR response of the
    TypeError of the destructuring, and has made the secret request and
    no other call: no connection is created. *)
Theorem handler_secret_not_an_object (e ref creds : value) :
  reads_reference e ref ->
  resolves_to w ref creds ->
  ~ object_coercible creds ->
  creds = VNull
  /\ exists msg,
       invoke w e = (Fulfilled (error_response (TypeError msg) (VStr msg)),
                     [GetSecretValue (secret_request ref)]).
Proof.
  intros Hread Hres Hno.
  pose proof (resolves_to_defined _ _ Hres) as Hdef.
  assert (Hnull : creds = VNull).
  { destruct creds; try reflexivity; try contradiction;
      exfalso; apply Hno; split; discriminate. }
  split; [exact Hnull | ].
  destruct (not_coercible_throws creds "password" Hno) as [msg Hthrow].
  exists msg. exact (invoke_not_object e ref creds msg Hread Hres Hthrow).
Qed.

(** X5.  When the bundled script cannot be read, the invocation returns
    the ERROR response with the file system's error and its message; the
    connection has been opened, and no statement is sent on it. *)
Theorem handler_script_unreadable (e ref creds : value) (name message : string) :
  reads_reference e ref ->
  resolves_to w ref creds ->
  object_coercible creds ->
  connection_connect w {| options := options_for creds |} = Returns tt ->
  fs_readFileSync w (script_path w) = Raises name message ->
  invoke w e
  = (Fulfilled (error_response (VError name message) (VStr message)),
     opening_calls ref creds ++ [ReadFileSync (script_path w)]).
Proof.
  intros Hread Hres Hco Hconn Hfile.
  rewrite (invoke_resolved e ref creds Hread Hres Hco). cbv zeta.
  rewrite Hconn, Hfile. reflexivity.
Qed.

(** X6.  When the database client reports an error for the script, the
    invocation returns the ERROR response with the client's error and
    that error's message; the results the client passed with the error
    are in no field of the response. *)
Theorem handler_query_fails (e ref creds : value) (sql : string)
        (error res m : value) :
  reads_reference e ref ->
  resolves_to w ref creds ->
  object_coercible creds ->
  connection_connect w {| options := options_for creds |} = Returns tt ->
  fs_readFileSync w (script_path w) = Returns sql ->
  connection_query w {| options := options_for creds |} sql = Callback error res ->
  ToBoolean error = true ->
  GetV error "message" = Normal m ->
  invoke w e = (Fulfilled (error_response error m), all_calls w ref creds sql)
  /\ GetV (error_response error m) "status" = Normal (VStr "ERROR")
  /\ GetV (error_response error m) "err" = Normal error
  /\ GetV (error_response error m) "message" = Normal m
  /\ GetV (error_response error m) "results" = Normal VUndefined.
Proof.
  intros Hread Hres Hco Hconn Hfile Hq Herr Hm.
  split; [ | repeat split].
  rewrite (invoke_resolved e ref creds Hread Hres Hco). cbv zeta.
  rewrite Hconn, Hfile, Hq, Herr, Hm. reflexivity.
Qed.


(** X8.  The OK response is returned only after the whole script was sent
    on the connection of the resolved credential and the client reported
    no error: the response then carries the client's results, and all
    five library calls were made. *)
Theorem handler_ok_only_if_script_ran (e response : value) :
  fst (invoke w e) = Fulfilled response ->
  GetV response "status" = Normal (VStr "OK") ->
  exists ref creds sql error res,
    reads_reference e ref
    /\ resolves_to w ref creds
    /\ fs_readFileSync w (script_path w) = Returns sql
    /\ connection_query w {| options := options_for creds |} sql = Callback error res
    /\ ToBoolean error = false
    /\ response = ok_response res
    /\ snd (invoke w e) = all_calls w ref creds sql.
Proof.
  destruct (invoke_invocation e); simpl; intros Hf Hs;
    inversion Hf; subst; try discriminate.
  exists ref, creds, sql, error, res. repeat split; assumption.
Qed.

(** X9.  The only file an invocation reads is script.sql in the
    directory of the Handler, and the only statement text it sends is
    the content of that file: neither depends on the event or on the
    secret. *)
Theorem handler_runs_bundled_script (e : value) (ev : event) :
  In ev (snd (invoke w e)) ->
  match ev with
  | ReadFileSync path => path = script_path w
  | Query _ sql => fs_readFileSync w (script_path w) = Returns sql
  | _ => True
  end.
Proof.
  unfold all_calls, opening_calls.
  destruct (invoke_invocation e); simpl; intros Hin;
    repeat (destruct Hin as [<- | Hin]; [try exact I; try reflexivity | ]);
    try contradiction; assumption.
Qed.

(** X10.  A connection is created or opened only for a credential that
    the secret store delivered for the reference of the event: its
    options are those built from that credential. *)
Theorem handler_connects_only_with_secret (e : value) (ev : event) :
  In ev (snd (invoke w e)) ->
  match ev with
  | CreateConnection opts | Connect {| options := opts |} | Query {| options := opts |} _ =>
      exists ref creds,
        reads_reference e ref /\ resolves_to w ref creds
        /\ object_coercible creds /\ opts = options_for creds
  | _ => True
  end.
Proof.
  unfold all_calls, opening_calls.
  destruct (invoke_invocation e); simpl; intros Hin;
    repeat (destruct Hin as [<- | Hin];
            [try exact I; try (exists ref, creds; auto) | ]);
    contradiction.
Qed.

(** X11.  Of the event the Handler uses the secret reference and nothing
    else: two events that hold the same reference are answered alike,
    with the same library calls. *)
Theorem handler_uses_reference_only (e e' ref : value) :
  reads_reference e ref ->
  reads_reference e' ref ->
  invoke w e = invoke w e'.
Proof.
  intros He He'. unfold invoke, handler, try_catch.
  rewrite (handler_try_reads _ _ _ _ He), (handler_try_reads _ _ _ _ He').
  reflexivity.
Qed.

End HandlerCases.

(** ** The physical resource id *)

Lemma string_forall_append (p : ascii -> bool) (a b : string) :
  string_forall p (a ++ b) = string_forall p a && string_forall p b.
Proof.
  induction a as [ | c a IH]; simpl; [reflexivity | ].
  rewrite IH. apply andb_assoc.
Qed.

Lemma hex_digit_is_hex (n : Z) : is_hex_digit (hex_digit n) = true.
Proof.
  unfold hex_digit. generalize (Z.to_nat n). intros k.
  do 16 (destruct k as [ | k]; [reflexivity | ]).
  destruct k; reflexivity.
Qed.

Lemma hex_word_shape (x : Z) :
  String.length (MD5.hex_word x) = 8%nat
  /\ string_forall is_hex_digit (MD5.hex_word x) = true.
Proof.
  unfold MD5.hex_word, hex_byte.
  cbn [MD5.le_bytes map concat append String.length string_forall].
  rewrite !hex_digit_is_hex. split; reflexivity.
Qed.

(** The digest in hexadecimal: 32 lower-case hexadecimal digits. *)
Lemma hex_shape (s : string) :
  String.length (MD5.hex s) = 32%nat
  /\ string_forall is_hex_digit (MD5.hex s) = true.
Proof.
  unfold MD5.hex, MD5.hex_of_state.
  generalize (MD5.digest (bytes_of_string s)). intros st.
  destruct (hex_word_shape (MD5.sA st)) as [La Ha].
  destruct (hex_word_shape (MD5.sB st)) as [Lb Hb].
  destruct (hex_word_shape (MD5.sC st)) as [Lc Hc].
  destruct (hex_word_shape (MD5.sD st)) as [Ld Hd].
  rewrite !length_append, !string_forall_append, La, Lb, Lc, Ld, Ha, Hb, Hc, Hd.
  split; reflexivity.
Qed.

Lemma append_inv_r (a a' s : string) :
  (a ++ s)%string = (a' ++ s)%string -> a = a'.
Proof.
  intros H.
  assert (Hlen : String.length a = String.length a').
  { apply (f_equal String.length) in H. rewrite !length_append in H. lia. }
  exact (proj1 (append_inv_same_length _ _ _ _ Hlen H)).
Qed.

Lemma append_inv_tail (a a' t t' : string) :
  String.length t = String.length t' ->
  (a ++ t)%string = (a' ++ t')%string -> a = a' /\ t = t'.
Proof.
  intros Ht H.
  assert (Hlen : String.length a = String.length a').
  { apply (f_equal String.length) in H. rewrite !length_append in H. lia. }
  exact (append_inv_same_length _ _ _ _ Hlen H).
Qed.

Section TriggerShape.
Import Cdk Trigger.

Variable calculateFunctionHash : DockerImageFunction -> string.

Local Abbreviation new := (Trigger.new calculateFunctionHash).
Local Abbreviation identityToken := (Trigger.identityToken calculateFunctionHash).
Local Abbreviation resourceId id props :=
  (physicalResourceId (AwsCustomResourceProps.onUpdate (customResource (new id props)))).

(** X12.  The physical resource id of the custom resource is the id of
    the construct, the text -AwsSdkCall- and the Identity Token, which is
    32 lower-case hexadecimal digits whatever the function hash and the
    config are; so two physical resource ids are equal exactly when the
    ids and the tokens are. *)
Theorem physicalResourceId_shape (id id' : string)
        (props props' : CdkResourceInitializerProps) :
  resourceId id props = (id ++ "-AwsSdkCall-" ++ identityToken id props)%string
  /\ String.length (identityToken id props) = 32%nat
  /\ string_forall is_hex_digit (identityToken id props) = true
  /\ (resourceId id props = resourceId id' props'
      <-> id = id' /\ identityToken id props = identityToken id' props').
Proof.
  destruct (hex_shape (calculateFunctionHash (fn id props) ++ payload (config props)))
    as [Hlen Hhex].
  destruct (hex_shape (calculateFunctionHash (fn id' props') ++ payload (config props')))
    as [Hlen' _].
  split; [reflexivity | split; [exact Hlen | split; [exact Hhex | ]]].
  split.
  - cbn [physicalResourceId AwsCustomResourceProps.onUpdate customResource
           Trigger.new sdkCall].
    intros H.
    assert (Hboth : (id ++ "-AwsSdkCall-")%string = (id' ++ "-AwsSdkCall-")%string
                    /\ identityToken id props = identityToken id' props').
    { apply append_inv_tail.
      - unfold Trigger.identityToken, physicalResIdHash. rewrite Hlen, Hlen'. reflexivity.
      - rewrite !append_assoc. exact H. }
    destruct Hboth as [Hid Htok]. split; [ | exact Htok].
    exact (append_inv_r _ _ _ Hid).
  - intros [-> Htok].
    cbn [physicalResourceId AwsCustomResourceProps.onUpdate customResource
           Trigger.new sdkCall].
    rewrite Htok. reflexivity.
Qed.

End TriggerShape.

(** X13.  Configs that are different JSON data have different payloads:
    the payload determines the config. *)
Theorem payload_distinguishes_configs (c c' : value) :
  is_json_data c = true ->
  is_json_data c' = true ->
  c <> c' ->
  Trigger.payload c <> Trigger.payload c'.
Proof.
  intros Hc Hc' Hne Heq. apply Hne.
  assert (Hback : forall x, is_json_data x = true ->
                    JSON_parse_text (Trigger.payload x)
                    = Normal (VObj [("params", VObj [("config", x)])])).
  { intros x Hx.
    apply (JSON_parse_stringify (VObj [("params", VObj [("config", x)])])).
    cbn. rewrite Hx. reflexivity. }
  pose proof (Hback c Hc) as H. rewrite Heq, (Hback c' Hc') in H.
  inversion H. reflexivity.
Qed.

Lemma payload_distinguishes_configs_witness :
  Trigger.payload (VObj [("credsSecretName", VStr "/a/rds/creds/mysql-01")])
  <> Trigger.payload (VObj [("credsSecretName", VStr "/b/rds/creds/mysql-01")]).
Proof.
  apply payload_distinguishes_configs.
  - reflexivity.
  - reflexivity.
  - discriminate.
Defined.

(** ** From the Trigger to the Handler *)

Section TriggerToHandler.
Import Cdk Trigger Handler HandlerSpec Calls.

Variable w : World.

(** Whatever the libraries answer, the first call of an invocation whose
    event holds a reference is the secret request for it. *)
Lemma invoke_first_call (e ref : value) :
  reads_reference e ref ->
  exists rest, snd (invoke w e) = GetSecretValue (secret_request ref) :: rest.
Proof.
  intros Hread. unfold all_calls, opening_calls.
  destruct (invoke_invocation w e); simpl;
    try (exfalso; eapply H; exact Hread);
    match goal with
    | H : reads_reference e ?r |- _ =>
        rewrite <- (reads_reference_functional e ref r Hread H)
    end;
    eexists; reflexivity.
Qed.

(** X14.  A config that does not serialize (undefined) is left out of the
    payload, and the Handler answers the event of that payload with the
    ERROR response of a TypeError, without calling any library. *)
Theorem handler_without_config (props : CdkResourceInitializerProps) :
  JSON_stringify (config props) = None ->
  payload (config props) = json_text "{'params':{}}"
  /\ exists msg,
       invoke w (Demo.event_for props)
       = (Fulfilled (error_response (TypeError msg) (VStr msg)), []).
Proof.
  intros Hnone. unfold Demo.event_for.
  destruct (config props); try discriminate.
  split; [reflexivity | ].
  apply invoke_malformed_event.
  intros ref (params & c & Hp & Hc & Hr).
  inversion Hp; subst. inversion Hc; subst. discriminate Hr.
Qed.

(** X15.  Deployed with a config that is a JSON data object, the Trigger
    delivers an event on which the first library call of the Handler is
    the request for the secret named by the credsSecretName of the
    config (undefined when the config has no such field), whatever the
    libraries answer. *)
Theorem handler_requests_configured_secret
        (props : CdkResourceInitializerProps) (fields : list (string * value)) :
  config props = VObj fields ->
  is_json_data (VObj fields) = true ->
  exists rest,
    snd (invoke w (Demo.event_for props))
    = GetSecretValue
        (VObj [("SecretId",
                match lookup "credsSecretName" fields with
                | Some ref => ref
                | None => VUndefined
                end)])
      :: rest.
Proof.
  intros Hconfig Hdata.
  exact (invoke_first_call _ _ (trigger_event_reads_reference props fields Hconfig Hdata)).
Qed.

End TriggerToHandler.

(** ** The names the Trigger gives *)

(** X18.  The name of the Handler function and the name of its security
    group are the id of the construct followed by a fixed word: they do
    not depend on the properties or on the function hash, and two
    constructs have the same function name, or the same group name,
    exactly when they have the same id. *)
Theorem names_determined_by_id
        (calc calc' : Cdk.DockerImageFunction -> string) (id id' : string)
        (props props' : Trigger.CdkResourceInitializerProps) :
  (Cdk.DockerImageFunctionProps.functionName (Trigger.function (Trigger.new calc id props))
   = Cdk.DockerImageFunctionProps.functionName (Trigger.function (Trigger.new calc' id' props'))
   <-> id = id')
  /\ (Cdk.SecurityGroupProps.securityGroupName (Trigger.fnSg id props)
      = Cdk.SecurityGroupProps.securityGroupName (Trigger.fnSg id' props')
      <-> id = id').
Proof.
  cbn. split; (split; [apply append_inv_r | intros ->; reflexivity]).
Qed.

(** ** The demonstration stack *)

Lemma toLowerCase_append (a b : string) :
  toLowerCase (a ++ b) = (toLowerCase a ++ toLowerCase b)%string.
Proof. induction a as [ | c a IH]; simpl; [reflexivity | now rewrite IH]. Qed.

Lemma lower_char_not_upper (c : ascii) : is_upper (lower_char c) = false.
Proof. destruct c as [[] [] [] [] [] [] [] []]; reflexivity. Qed.

Lemma toLowerCase_not_upper (s : string) :
  string_forall (fun c => negb (is_upper c)) (toLowerCase s) = true.
Proof.
  induction s as [ | c s IH]; simpl; [reflexivity | ].
  rewrite lower_char_not_upper, IH. reflexivity.
Qed.

Lemma credsSecretName_text (id : string) :
  Stack.credsSecretName id = ("/" ++ toLowerCase id ++ "/rds/creds/mysql-01")%string.
Proof.
  unfold Stack.credsSecretName. rewrite !toLowerCase_append. reflexivity.
Qed.

(** The stack of src/bin/rds-init-example.ts passes the Trigger the
    properties of [Demo.props]. *)
Example initializerProps_RdsInitExample :
  Stack.initializerProps "RdsInitExample" = Demo.props.
Proof. reflexivity. Qed.

(** X16.  The secret name of a stack (its id being ASCII text) is the
    lower-cased id between a slash and /rds/creds/mysql-01: it holds no
    upper-case letter, and the stacks of two ids have one secret name
    exactly when the ids are equal up to the case of their letters. *)
Theorem credsSecretName_ignores_case (id id' : string) :
  is_ascii id = true ->
  is_ascii id' = true ->
  Stack.credsSecretName id = ("/" ++ toLowerCase id ++ "/rds/creds/mysql-01")%string
  /\ string_forall (fun c => negb (is_upper c)) (Stack.credsSecretName id) = true
  /\ (Stack.credsSecretName id = Stack.credsSecretName id'
      <-> toLowerCase id = toLowerCase id').
Proof.
  intros _ _. split; [apply credsSecretName_text | split].
  - apply toLowerCase_not_upper.
  - rewrite !credsSecretName_text. split.
    + intros H. inversion H as [H']. exact (append_inv_r _ _ _ H').
    + intros ->. reflexivity.
Qed.

Lemma credsSecretName_ignores_case_witness :
  Stack.credsSecretName "RdsInitExample" = "/rdsinitexample/rds/creds/mysql-01"
  /\ Stack.credsSecretName "RdsInitExample" = Stack.credsSecretName "RDSINITEXAMPLE".
Proof.
  destruct (credsSecretName_ignores_case "RdsInitExample" "RDSINITEXAMPLE"
              eq_refl eq_refl) as (Htext & _ & Hsame).
  split.
  - exact Htext.
  - apply Hsame. reflexivity.
Defined.

(** X17.  From the stack to the Handler: whatever the id of the stack and
    whatever the libraries answer, the first library call of the Handler
    on the event the stack's Trigger delivers is the request for the
    secret under the name the stack gave its database secret. *)
Theorem stack_handler_requests_database_secret (w : Handler.World) (id : string) :
  exists rest,
    snd (Handler.invoke w (Demo.event_for (Stack.initializerProps id)))
    = Handler.GetSecretValue
        (VObj [("SecretId", VStr (Stack.secretName (Stack.creds id)))])
      :: rest.
Proof.
  apply invoke_first_call.
  exact (trigger_event_reads_reference
           (Stack.initializerProps id)
           [("credsSecretName", VStr (Stack.credsSecretName id))]
           eq_refl eq_refl).
Qed.

(** ** The further properties at the demonstration stack *)

Lemma event_without_config_reads_nothing (ref : value) :
  ~ HandlerSpec.reads_reference (VObj [("params", VObj [])]) ref.
Proof.
  intros (params & config & Hp & Hc & Hr).
  inversion Hp; subst. inversion Hc; subst. discriminate Hr.
Qed.

Lemma handler_event_without_reference_witness :
  exists msg,
    Handler.invoke (Demo.world Demo.good_store) (VObj [("params", VObj [])])
    = (Handler.Fulfilled (Handler.error_response (TypeError msg) (VStr msg)), [])
    /\ GetV (Handler.error_response (TypeError msg) (VStr msg)) "status"
       = Normal (VStr "ERROR").
Proof.
  apply (handler_event_without_reference (Demo.world Demo.good_store)).
  exact event_without_config_reads_nothing.
Defined.

Lemma null_secret_resolves :
  HandlerSpec.resolves_to (Demo.world Scenario.null_store)
    (VStr Demo.credsSecretName) VNull.
Proof.
  exists VNull,
    (VObj [("Name", VStr Demo.credsSecretName); ("SecretString", VStr "null")]),
    (VStr "null").
  repeat split; vm_compute; reflexivity.
Qed.

Lemma handler_secret_not_an_object_witness :
  VNull = VNull
  /\ exists msg,
       Handler.invoke (Demo.world Scenario.null_store) (Demo.event_for Demo.props)
       = (Handler.Fulfilled (Handler.error_response (TypeError msg) (VStr msg)),
          [Handler.GetSecretValue (HandlerSpec.secret_request (VStr Demo.credsSecretName))]).
Proof.
  apply (handler_secret_not_an_object (Demo.world Scenario.null_store)
           (Demo.event_for Demo.props) (VStr Demo.credsSecretName) VNull).
  - exact demo_reads_reference.
  - exact null_secret_resolves.
  - intros [_ Hn]. apply Hn. reflexivity.
Defined.

Lemma handler_script_unreadable_witness :
  Handler.invoke (Scenario.without_script (Demo.world Demo.good_store))
                 (Demo.event_for Demo.props)
  = (Handler.Fulfilled
       (Handler.error_response
          (VError "Error" "ENOENT: no such file or directory, open '/var/task/script.sql'")
          (VStr "ENOENT: no such file or directory, open '/var/task/script.sql'")),
     Calls.opening_calls (VStr Demo.credsSecretName) Scenario.good_creds
     ++ [Handler.ReadFileSync "/var/task/script.sql"]).
Proof.
  apply (handler_script_unreadable
           (Scenario.without_script (Demo.world Demo.good_store))).
  - exact demo_reads_reference.
  - exact demo_resolves.
  - split; discriminate.
  - reflexivity.
  - reflexivity.
Defined.

Lemma handler_query_fails_witness :
  let error := VError "ER_PARSE_ERROR" "You have an error in your SQL syntax" in
  let m := VStr "You have an error in your SQL syntax" in
  let w := Scenario.rejecting (Demo.world Demo.good_store) in
  Handler.invoke w (Demo.event_for Demo.props)
  = (Handler.Fulfilled (Handler.error_response error m),
     Calls.all_calls w (VStr Demo.credsSecretName) Scenario.good_creds Demo.script)
  /\ GetV (Handler.error_response error m) "status" = Normal (VStr "ERROR")
  /\ GetV (Handler.error_response error m) "err" = Normal error
  /\ GetV (Handler.error_response error m) "message" = Normal m
  /\ GetV (Handler.error_response error m) "results" = Normal VUndefined.
Proof.
  intros error m w.
  apply (handler_query_fails w (Demo.event_for Demo.props)
           (VStr Demo.credsSecretName) Scenario.good_creds Demo.script
           error VUndefined m).
  - exact demo_reads_reference.
  - exact demo_resolves.
  - split; discriminate.
  - reflexivity.
  - reflexivity.
  - reflexivity.
  - reflexivity.
  - reflexivity.
Defined.

Lemma handler_ok_only_if_script_ran_witness :
  let w := Demo.world Demo.good_store in
  let e := Demo.event_for Demo.props in
  exists ref creds sql error res,
    HandlerSpec.reads_reference e ref
    /\ HandlerSpec.resolves_to w ref creds
    /\ Handler.fs_readFileSync w (Calls.script_path w) = Handler.Returns sql
    /\ Handler.connection_query w {| Handler.options := HandlerSpec.options_for creds |} sql
       = Handler.Callback error res
    /\ ToBoolean error = false
    /\ Handler.ok_response Demo.rows = Handler.ok_response res
    /\ snd (Handler.invoke w e) = Calls.all_calls w ref creds sql.
Proof.
  intros w e.
  apply (handler_ok_only_if_script_ran w e (Handler.ok_response Demo.rows)).
  - vm_compute. reflexivity.
  - reflexivity.
Defined.

Lemma handler_runs_bundled_script_witness :
  let w := Demo.world Demo.good_store in
  Handler.fs_readFileSync w (Calls.script_path w) = Handler.Returns "SELECT 1;".
Proof.
  intros w.
  apply (handler_runs_bundled_script w (Demo.event_for Demo.props)
           (Handler.Query
              {| Handler.options := HandlerSpec.options_for Scenario.good_creds |}
              "SELECT 1;")).
  vm_compute. do 4 right. left. reflexivity.
Defined.

Lemma handler_connects_only_with_secret_witness :
  let w := Demo.world Demo.good_store in
  let e := Demo.event_for Demo.props in
  exists ref creds,
    HandlerSpec.reads_reference e ref
    /\ HandlerSpec.resolves_to w ref creds
    /\ HandlerSpec.object_coercible creds
    /\ VObj [("host", VStr "h"); ("user", VStr "admin"); ("password", VStr "p");
             ("multipleStatements", VBool true)]
       = HandlerSpec.options_for creds.
Proof.
  intros w e.
  apply (handler_connects_only_with_secret w e
           (Handler.CreateConnection
              (VObj [("host", VStr "h"); ("user", VStr "admin"); ("password", VStr "p");
                     ("multipleStatements", VBool true)]))).
  vm_compute. right. left. reflexivity.
Defined.

Lemma handler_uses_reference_only_witness :
  let w := Demo.world Demo.good_store in
  Handler.invoke w (Demo.event_for Demo.props)
  = Handler.invoke w
      (VObj [("params",
              VObj [("config",
                     VObj [("region", VStr "eu-west-1");
                           ("credsSecretName", VStr Demo.credsSecretName)]);
                    ("retries", VNum (Int 3))]);
             ("requestId", VStr "42")]).
Proof.
  intros w.
  apply (handler_uses_reference_only w _ _ (VStr Demo.credsSecretName)).
  - exact demo_reads_reference.
  - eexists. eexists. repeat split.
Defined.

Lemma handler_without_config_witness :
  let props := Demo.with_config VUndefined Demo.props in
  Trigger.payload (Trigger.config props) = json_text "{'params':{}}"
  /\ exists msg,
       Handler.invoke (Demo.world Demo.good_store) (Demo.event_for props)
       = (Handler.Fulfilled (Handler.error_response (TypeError msg) (VStr msg)), []).
Proof.
  intros props.
  apply (handler_without_config (Demo.world Demo.good_store) props).
  reflexivity.
Defined.

Lemma handler_requests_configured_secret_witness :
  exists rest,
    snd (Handler.invoke (Demo.world Demo.empty_store) (Demo.event_for Demo.props))
    = Handler.GetSecretValue (VObj [("SecretId", VStr Demo.credsSecretName)]) :: rest.
Proof.
  apply (handler_requests_configured_secret (Demo.world Demo.empty_store) Demo.props
           [("credsSecretName", VStr Demo.credsSecretName)]).
  - reflexivity.
  - reflexivity.
Defined.
